(** * DevFlow: classification and search pipelines

    Shallow embedding of the note-capture application's classification
    flows ([autoTagEntryFlow], [bulkAutoTagFlow], [bulkAddEntries]) and of
    its local search ([localSearch]).  Strings are [String.string] over
    8-bit characters (read as Latin-1); numbers that are JavaScript
    doubles used as fractions (confidence, jitter) are rationals [Q];
    millisecond timestamps are [Z].  The external oracle and the document
    store are parameters: the oracle is a function from the attempt
    number to its response, the store is a function from the index of
    a [createEntry] call to whether that call fails. *)

From Stdlib Require Import Bool List Arith Lia ZArith QArith Strings.String Strings.Ascii.
Import ListNotations.
Open Scope string_scope.

(** ** JavaScript string primitives *)

Module JS.
Local Open Scope nat_scope.

(** Characters matched by [\s] and stripped by [String.prototype.trim]
    (the 8-bit ones: TAB, LF, VT, FF, CR, SPACE, NBSP). *)
Definition is_ws (c : ascii) : bool :=
  let n := nat_of_ascii c in
  (9 <=? n) && (n <=? 13) || (n =? 32) || (n =? 160).

(** [toLowerCase] on 8-bit characters: A-Z and the Latin-1 capitals. *)
Definition lower_char (c : ascii) : ascii :=
  let n := nat_of_ascii c in
  if ((65 <=? n) && (n <=? 90)) || ((192 <=? n) && (n <=? 222) && negb (n =? 215))
  then ascii_of_nat (n + 32) else c.

Fixpoint toLowerCase (s : string) : string :=
  match s with
  | EmptyString => EmptyString
  | String c r => String (lower_char c) (toLowerCase r)
  end.

Fixpoint trimStart (s : string) : string :=
  match s with
  | EmptyString => EmptyString
  | String c r => if is_ws c then trimStart r else s
  end.

Fixpoint trimEnd (s : string) : string :=
  match s with
  | EmptyString => EmptyString
  | String c r =>
      let r' := trimEnd r in
      if is_ws c && String.eqb r' "" then "" else String c r'
  end.

Definition trim (s : string) : string := trimEnd (trimStart s).

(** [s.includes(sub)] *)
Fixpoint includes (s sub : string) : bool :=
  prefix sub s ||
  match s with
  | EmptyString => false
  | String _ r => includes r sub
  end.

(** [s.split(sep)] for a one-character separator. *)
Fixpoint split_char (sep : ascii) (s : string) : list string :=
  match s with
  | EmptyString => [""]
  | String c r =>
      if Ascii.eqb c sep then "" :: split_char sep r
      else match split_char sep r with
           | [] => [String c ""]
           | h :: t => String c h :: t
           end
  end.

(** [s.split(/\s+/)]: [cur] is the piece being read, [in_ws] tells
    whether the previous character was whitespace. *)
Fixpoint split_ws_aux (s cur : string) (in_ws : bool) : list string :=
  match s with
  | EmptyString => [cur]
  | String c r =>
      if is_ws c then
        if in_ws then split_ws_aux r "" true
        else cur :: split_ws_aux r "" true
      else split_ws_aux r (cur ++ String c "") false
  end.

Definition split_ws (s : string) : list string := split_ws_aux s "" false.

(** [s.replace(/from/g, to)] for single characters. *)
Fixpoint replace_all (from to : ascii) (s : string) : string :=
  match s with
  | EmptyString => EmptyString
  | String c r => String (if Ascii.eqb c from then to else c) (replace_all from to r)
  end.

(** [parts.join(sep)] *)
Fixpoint join (sep : string) (parts : list string) : string :=
  match parts with
  | [] => ""
  | [p] => p
  | p :: ps => p ++ sep ++ join sep ps
  end.

(** [!s] for a string: the empty string is falsy. *)
Definition falsy_str (s : string) : bool := String.eqb s "".

End JS.

Import JS.

(** ** Data model (src/lib/types.ts, auto-tagging-entries.ts) *)

Inductive DetectedLanguage := En | Hi | Mr | Hinglish | Mixed.
Inductive Priority := Low | Medium | High | Urgent.
Inductive CodeType := CTFunction | CTClass | CTSnippet | CTConfig | CTOther.
Inductive EntryCategory := code_snippet | learning_note | idea | bug_fix | general | task.

Definition all_categories : list EntryCategory :=
  [code_snippet; learning_note; idea; bug_fix; general; task].

Definition category_name (c : EntryCategory) : string :=
  match c with
  | code_snippet => "code_snippet"
  | learning_note => "learning_note"
  | idea => "idea"
  | bug_fix => "bug_fix"
  | general => "general"
  | task => "task"
  end.

Record SlangTerm := mkSlang { original : string; meaning : string; slang_confidence : Q }.

(** [AutoTagEntryOutput]: fields marked [.optional()] are [option]s;
    [confidence] is kept optional so that a missing value can be
    represented (the check [!output.confidence] handles it). *)
Record AutoTagEntryOutput := mkOut {
  detectedLanguage : DetectedLanguage;
  translatedContent : string;
  category : EntryCategory;
  tags : list string;
  dueDate : option string;
  priority : option Priority;
  actionItems : option (list string);
  language : option string;
  codeType : option CodeType;
  containsSlang : bool;
  slangTerms : option (list SlangTerm);
  confidence : option Q;
  reasoning : option string;
  isCompleted : option bool
}.

(** Errors caught from [ai.generate]: [error?.status], [error?.message]. *)
Record OracleError := mkErr { status : option Z; message : option string }.

Definition msg_includes (e : OracleError) (sub : string) : bool :=
  match message e with Some m => includes m sub | None => false end.

(** Responses of one oracle call ([ai.generate]): a structured output,
    which may be absent ([result.output] is null), or a thrown error. *)
Inductive OracleResponse (A : Type) :=
| Answer (o : option A)
| Failure (e : OracleError).
Arguments Answer {A} o.
Arguments Failure {A} e.

(** One run of a retrying flow: its value, the number of oracle calls it
    made and the delays (ms) it slept, in order. *)
Record Run (A : Type) := mkRun { run_out : A; run_calls : nat; run_delays : list Q }.
Arguments mkRun {A} run_out run_calls run_delays.
Arguments run_out {A} r.
Arguments run_calls {A} r.
Arguments run_delays {A} r.

(** ** Single-entry classifier (auto-tagging-entries.ts) *)

Module AutoTag.
Local Open Scope Q_scope.

Definition maxRetries : nat := 3.
Definition baseDelay : Z := 1000.
Definition maxDelay : Z := 10000.

(** [Math.min(baseDelay * Math.pow(2, attempt), maxDelay)] *)
Definition exponentialDelay (attempt : nat) : Z :=
  Z.min (baseDelay * 2 ^ Z.of_nat attempt) maxDelay.

Definition Qlt_bool (a b : Q) : bool := negb (Qle_bool b a).

Definition set_confidence (o : AutoTagEntryOutput) (c : Q) : AutoTagEntryOutput :=
  mkOut (detectedLanguage o) (translatedContent o) (category o) (tags o) (dueDate o)
    (priority o) (actionItems o) (language o) (codeType o) (containsSlang o)
    (slangTerms o) (Some c) (reasoning o) (isCompleted o).

Definition set_tags (o : AutoTagEntryOutput) (t : list string) : AutoTagEntryOutput :=
  mkOut (detectedLanguage o) (translatedContent o) (category o) t (dueDate o)
    (priority o) (actionItems o) (language o) (codeType o) (containsSlang o)
    (slangTerms o) (confidence o) (reasoning o) (isCompleted o).

Definition set_translatedContent (o : AutoTagEntryOutput) (s : string) : AutoTagEntryOutput :=
  mkOut (detectedLanguage o) s (category o) (tags o) (dueDate o)
    (priority o) (actionItems o) (language o) (codeType o) (containsSlang o)
    (slangTerms o) (confidence o) (reasoning o) (isCompleted o).

Definition set_reasoning (o : AutoTagEntryOutput) (s : string) : AutoTagEntryOutput :=
  mkOut (detectedLanguage o) (translatedContent o) (category o) (tags o) (dueDate o)
    (priority o) (actionItems o) (language o) (codeType o) (containsSlang o)
    (slangTerms o) (confidence o) (Some s) (isCompleted o).

(** [input.toLowerCase().split(/\s+/).filter(w => w.length > 3).slice(0, 5)],
    or [['general']] when that is empty. *)
Definition extractBasicTags (input : string) : list string :=
  let keywords := firstn 5 (filter (fun w => Nat.ltb 3 (String.length w))
                                   (split_ws (toLowerCase input))) in
  match keywords with
  | [] => ["general"]
  | _ => keywords
  end.

(** [!output.confidence || output.confidence < 0 || output.confidence > 1] *)
Definition confidence_unreasonable (c : option Q) : bool :=
  match c with
  | None => true
  | Some q => Qeq_bool q 0 || Qlt_bool q 0 || Qlt_bool 1 q
  end.

Definition reasoning_missing (r : option string) : bool :=
  match r with None => true | Some s => falsy_str s end.

Definition validateAndEnhanceOutput (output : AutoTagEntryOutput) (originalInput : string)
  : AutoTagEntryOutput :=
  let o1 := if confidence_unreasonable (confidence output)
            then set_confidence output (7 # 10) else output in
  let o2 := match tags o1 with
            | [] => set_tags o1 (extractBasicTags originalInput)
            | _ => o1
            end in
  let o3 := if falsy_str (translatedContent o2) || String.eqb (trim (translatedContent o2)) ""
            then set_translatedContent o2 originalInput else o2 in
  if reasoning_missing (reasoning o3)
  then set_reasoning o3 ("Categorized as " ++ category_name (category o3)
                         ++ " based on content analysis")
  else o3.

Definition fallback_reasoning : string :=
  "AI service unavailable - used rule-based fallback categorization with basic heuristics".

Definition getFallbackResult (input : string) : AutoTagEntryOutput :=
  let lowerInput := toLowerCase input in
  let '(cat, conf) :=
    if includes lowerInput "function" || includes lowerInput "const"
       || includes lowerInput "import" then (code_snippet, 6 # 10)
    else if includes lowerInput "app" || includes lowerInput "build"
       || includes lowerInput "develop" then (idea, 5 # 10)
    else if includes lowerInput "learn" || includes lowerInput "til"
       || includes lowerInput "discovered" then (learning_note, 5 # 10)
    else if includes lowerInput "bug" || includes lowerInput "fix"
       || includes lowerInput "error" then (bug_fix, 5 # 10)
    else if includes lowerInput "task" || includes lowerInput "todo"
       || includes lowerInput "reminder" then (task, 5 # 10)
    else (general, 4 # 10) in
  mkOut En input cat (extractBasicTags input) None None None None None false None
    (Some conf) (Some fallback_reasoning) None.

(** [isRetryableError] of [autoTagEntryFlow]. *)
Definition isRetryableError (e : OracleError) : bool :=
  let isRateLimitError :=
    match status e with Some s => Z.eqb s 503 | None => false end
    || msg_includes e "503" || msg_includes e "overloaded"
    || msg_includes e "quota" || msg_includes e "RESOURCE_EXHAUSTED" in
  isRateLimitError || msg_includes e "timeout" || msg_includes e "DEADLINE_EXCEEDED".

(** The [for] loop of [autoTagEntryFlow]; [fuel] is [maxRetries - attempt]
    and [jitter attempt] is the value of [Math.random() * 500]. *)
Fixpoint loop (input : string) (oracle : nat -> OracleResponse AutoTagEntryOutput)
  (jitter : nat -> Q) (fuel attempt : nat) : Run AutoTagEntryOutput :=
  match fuel with
  | O => mkRun (getFallbackResult input) 0 []
  | S fuel' =>
      match oracle attempt with
      | Answer o =>
          let output := match o with Some x => x | None => getFallbackResult input end in
          mkRun (validateAndEnhanceOutput output input) 1 []
      | Failure e =>
          if isRetryableError e && Nat.ltb attempt (maxRetries - 1) then
            let delay := inject_Z (exponentialDelay attempt) + jitter attempt in
            let r := loop input oracle jitter fuel' (S attempt) in
            mkRun (run_out r) (S (run_calls r)) (delay :: run_delays r)
          else mkRun (getFallbackResult input) 1 []
      end
  end.

Definition autoTagEntryFlow (input : string) (oracle : nat -> OracleResponse AutoTagEntryOutput)
  (jitter : nat -> Q) : Run AutoTagEntryOutput :=
  loop input oracle jitter maxRetries 0.

(** [autoTagEntry] *)
Definition autoTagEntry input oracle jitter : AutoTagEntryOutput :=
  run_out (autoTagEntryFlow input oracle jitter).

End AutoTag.

(** ** Stored entries (src/lib/types.ts) *)

(** [Omit<Entry, 'id'>]: what [createEntry] receives. *)
Record EntryData := mkEntryData {
  createdAt : Z;
  updatedAt : Z;
  content : string;
  e_translatedContent : option string;
  e_detectedLanguage : DetectedLanguage;
  e_category : EntryCategory;
  e_tags : list string;
  e_dueDate : option string;
  e_priority : option Priority;
  e_actionItems : option (list string);
  e_language : option string;
  e_codeType : option CodeType;
  e_containsSlang : bool;
  e_slangTerms : option (list SlangTerm);
  e_confidence : Q;
  e_reasoning : option string;
  userId : option string;
  e_isCompleted : bool
}.

(** [Entry]: the stored record with the id assigned by the store. *)
Record Entry := mkEntry { id : string; data : EntryData }.

(** ** Bulk classifier (bulk-auto-tagging.ts) *)

Module Bulk.
Local Open Scope Q_scope.

Definition maxRetries : nat := 3.

(** [isRetryableError] of [bulkAutoTagFlow]. *)
Definition isRetryableError (e : OracleError) : bool :=
  match status e with Some s => Z.eqb s 503 | None => false end
  || msg_includes e "503" || msg_includes e "overloaded"
  || msg_includes e "quota" || msg_includes e "resource exhausted"
  || msg_includes e "timeout".

(** The [for] loop of [bulkAutoTagFlow].  A missing output throws
    [Error('No output generated')] inside the [try], so it reaches the
    same [catch]. *)
Fixpoint loop (oracle : nat -> OracleResponse (list AutoTagEntryOutput))
  (jitter : nat -> Q) (fuel attempt : nat) : Run (list AutoTagEntryOutput + OracleError) :=
  match fuel with
  | O => mkRun (inr (mkErr None (Some "Bulk AI generation failed after retries"))) 0 []
  | S fuel' =>
      let handle (e : OracleError) :=
        if isRetryableError e && Nat.ltb attempt (maxRetries - 1) then
          let delay := inject_Z (AutoTag.exponentialDelay attempt) + jitter attempt in
          let r := loop oracle jitter fuel' (S attempt) in
          mkRun (run_out r) (S (run_calls r)) (delay :: run_delays r)
        else mkRun (inr e) 1 [] in
      match oracle attempt with
      | Answer (Some output) => mkRun (inl output) 1 []
      | Answer None => handle (mkErr None (Some "No output generated"))
      | Failure e => handle e
      end
  end.

Definition bulkAutoTagFlow oracle jitter : Run (list AutoTagEntryOutput + OracleError) :=
  loop oracle jitter maxRetries 0.

End Bulk.

(** ** Bulk ingestion ([bulkAddEntries], src/lib/actions.ts) *)

Module Actions.
Local Open Scope Q_scope.

(** The record built for one oracle result on the smart-import path. *)
Definition entry_of_result (now : Z) (result : AutoTagEntryOutput) : EntryData :=
  mkEntryData now now
    (if falsy_str (translatedContent result) then "Empty Content" else translatedContent result)
    (Some (translatedContent result)) (detectedLanguage result) (category result)
    (tags result) (dueDate result) (priority result) (actionItems result)
    (language result) (codeType result) (containsSlang result) (slangTerms result)
    (match confidence result with Some c => c | None => 8 # 10 end)
    (reasoning result) (Some "anonymous")
    (match isCompleted result with Some b => b | None => false end).

(** The record built for one line on the newline fallback path. *)
Definition fallback_entry (now : Z) (line : string) : EntryData :=
  mkEntryData now now line (Some line) En general ["bulk-import-failed"]
    None None None None None false None 0
    (Some "Smart import failed, fallback to raw lines") (Some "anonymous") false.

(** [Promise.all(records.map(createEntry))]: every call is issued; call
    number [idx + i] fails when [fails (idx + i)].  Returns the records the
    store saved and whether the joined promise resolved. *)
Fixpoint persist_all (fails : nat -> bool) (idx : nat) (recs : list EntryData)
  : list EntryData * bool :=
  match recs with
  | [] => ([], true)
  | r :: rs =>
      let '(saved, ok) := persist_all fails (S idx) rs in
      if fails idx then (saved, false) else (r :: saved, ok)
  end.

Inductive BulkResult := BOk (n : nat) | BErr.

(** [rawContent.split('\n').map(e => e.trim()).filter(e => e.length > 0)] *)
Definition backupEntries (rawContent : string) : list string :=
  filter (fun e => Nat.ltb 0 (String.length e))
         (map trim (split_char (ascii_of_nat 10) rawContent)).

(** The [catch] block: newline fallback, store calls numbered from [idx]. *)
Definition fallback_path (fails : nat -> bool) (now : Z) (rawContent : string)
  (idx : nat) (db : list EntryData) : BulkResult * list EntryData :=
  let lines := backupEntries rawContent in
  let '(saved, ok) := persist_all fails idx (map (fallback_entry now) lines) in
  (if ok then BOk (List.length lines) else BErr, (db ++ saved)%list).

(** [bulkAddEntries]; the store is the list [db] of saved records. *)
Definition bulkAddEntries (rawContent : string)
  (oracle : nat -> OracleResponse (list AutoTagEntryOutput)) (jitter : nat -> Q)
  (fails : nat -> bool) (now : Z) (db : list EntryData) : BulkResult * list EntryData :=
  if falsy_str (trim rawContent) then (BOk 0, db) else
  match run_out (Bulk.bulkAutoTagFlow oracle jitter) with
  | inr _ => fallback_path fails now rawContent 0 db
  | inl results =>
      match results with
      | [] => (BOk 0, db)
      | _ =>
          if Nat.eqb (List.length results) 1 && Nat.ltb 200 (String.length rawContent)
          then fallback_path fails now rawContent 0 db
          else
            let '(saved, ok) := persist_all fails 0 (map (entry_of_result now) results) in
            if ok then (BOk (List.length results), (db ++ saved)%list)
            else fallback_path fails now rawContent (List.length results) ((db ++ saved)%list)
      end
  end.

End Actions.

(** ** Local search ([localSearch], src/lib/search-utils.ts) *)

Module Search.

Definition searchableContent (entry : Entry) : string :=
  let d := data entry in
  toLowerCase (join " "
    ([content d;
      match e_translatedContent d with Some t => t | None => "" end;
      replace_all "_" " " (category_name (e_category d))]
     ++ e_tags d
     ++ [match e_reasoning d with Some r => r | None => "" end])).

Definition search_terms (query : string) : list string :=
  filter (fun t => Nat.ltb 1 (String.length t)) (split_ws (toLowerCase query)).

Definition localSearch (query : string) (entries : list Entry) : list Entry :=
  if falsy_str (trim query) then entries else
  let terms := search_terms query in
  filter (fun entry => forallb (fun term => includes (searchableContent entry) term) terms)
         entries.

End Search.

(** ** Relevance scorer *)

(** Modelled from the spec: the relevance scorer of the search
    orchestrator (the module holding [smartSearch]) is not among the
    sources.  Section 4.5: every keyword is matched case-insensitively
    and independently; +10 in the original content, +8 in the translated
    content, +6 in any tag, +4 in the category name; +5 once when the
    entry's category is a candidate category; a recency bonus of +3, +2,
    +1 or +0 for an age (ms since [createdAt]) below 1, 7, 30 days or
    more. *)
Module Score.
Local Open Scope Z_scope.

Definition day_ms : Z := 86400000.

Definition keyword_points (entry : Entry) (kw : string) : Z :=
  let d := data entry in
  let k := toLowerCase kw in
  (if includes (toLowerCase (content d)) k then 10 else 0)
  + (if includes (toLowerCase (match e_translatedContent d with Some t => t | None => "" end)) k
     then 8 else 0)
  + (if existsb (fun t => includes (toLowerCase t) k) (e_tags d) then 6 else 0)
  + (if includes (toLowerCase (category_name (e_category d))) k then 4 else 0).

Definition category_eqb (a b : EntryCategory) : bool :=
  String.eqb (category_name a) (category_name b).

Definition recency_bonus (age : Z) : Z :=
  if age <? day_ms then 3
  else if age <? 7 * day_ms then 2
  else if age <? 30 * day_ms then 1
  else 0.

Definition score (entry : Entry) (keywords : list string)
  (categories : list EntryCategory) (now : Z) : Z :=
  let kw_score := fold_left (fun acc kw => acc + keyword_points entry kw) keywords 0 in
  let cat_score := if existsb (category_eqb (e_category (data entry))) categories then 5 else 0 in
  kw_score + cat_score + recency_bonus (now - createdAt (data entry)).

End Score.

(** ** Single-entry ingestion ([addEntry], src/lib/actions.ts) *)

Module AddEntry.
Local Open Scope Q_scope.

Inductive AddResult := Added (e : EntryData) | AddFailed (msg : string).

Definition firestore_create_error : string := "Failed to create entry in Firestore".

(** The record [addEntry] builds from the classifier's result. *)
Definition entry_of_aiResult (now : Z) (content0 : string) (aiResult : AutoTagEntryOutput)
  : EntryData :=
  mkEntryData now now content0 (Some (translatedContent aiResult))
    (detectedLanguage aiResult) (category aiResult) (tags aiResult) (dueDate aiResult)
    (priority aiResult) (actionItems aiResult) (language aiResult) (codeType aiResult)
    (containsSlang aiResult) (slangTerms aiResult)
    (match confidence aiResult with Some c => c | None => 0 end)
    (reasoning aiResult) (Some "anonymous") false.

Definition fallback_entry (now : Z) (content0 : string) : EntryData :=
  mkEntryData now now content0 (Some content0) En general [] None None None None None
    false None (3 # 10) (Some "AI processing failed, using fallback categorization")
    (Some "anonymous") false.

(** [addEntry]: the classifier catches every oracle error itself
    ([autoTagEntry] has no failing outcome), so inside the [try] only
    [createEntry] can throw, with [firestore_create_error]; store calls
    are numbered 0 (the first save) and 1 (the save in the [catch]).
    The confidence of the classifier's result is always present after
    [validateAndEnhanceOutput] or [getFallbackResult]; [None] is mapped to 0
    only to keep the function total. *)
Definition addEntry (content0 : string) (oracle : nat -> OracleResponse AutoTagEntryOutput)
  (jitter : nat -> Q) (fails : nat -> bool) (now : Z) (db : list EntryData)
  : AddResult * list EntryData :=
  if falsy_str (trim content0) then (AddFailed "Content cannot be empty.", db) else
  let aiResult := AutoTag.autoTagEntry content0 oracle jitter in
  let entryData := entry_of_aiResult now content0 aiResult in
  if negb (fails 0%nat) then (Added entryData, (db ++ [entryData])%list) else
  let error := firestore_create_error in
  if includes error "Firestore" then (AddFailed ("Database error: " ++ error), db) else
  let fallbackEntry := fallback_entry now content0 in
  if negb (fails 1%nat) then (Added fallbackEntry, (db ++ [fallbackEntry])%list)
  else (AddFailed "Critical error: Both AI and database operations failed", db).

End AddEntry.

(** ** Document conversion ([entryToDoc], [docToEntry], src/lib/entry-service.ts) *)

Module EntryDoc.
Local Open Scope Q_scope.

(** A stored Firestore document; [None] is a [null] field.  Timestamps
    are kept as milliseconds ([Timestamp.fromDate] / [toDate] are
    inverse on them). *)
Record Doc := mkDoc {
  d_createdAt : Z;
  d_updatedAt : Z;
  d_content : string;
  d_translatedContent : option string;
  d_detectedLanguage : DetectedLanguage;
  d_category : EntryCategory;
  d_tags : option (list string);
  d_dueDate : option string;
  d_priority : option Priority;
  d_actionItems : option (list string);
  d_language : option string;
  d_codeType : option CodeType;
  d_containsSlang : bool;
  d_slangTerms : option (list SlangTerm);
  d_confidence : Q;
  d_reasoning : option string;
  d_userId : string;
  d_isCompleted : bool
}.

(** [s || null] for an optional string. *)
Definition str_or_null (s : option string) : option string :=
  match s with Some v => if falsy_str v then None else Some v | None => None end.

Definition entryToDoc (e : EntryData) : Doc :=
  mkDoc (createdAt e) (updatedAt e) (content e) (e_translatedContent e)
    (e_detectedLanguage e) (e_category e) (Some (e_tags e)) (str_or_null (e_dueDate e))
    (e_priority e) (e_actionItems e) (str_or_null (e_language e)) (e_codeType e)
    (e_containsSlang e) (e_slangTerms e) (e_confidence e) (str_or_null (e_reasoning e))
    (match str_or_null (userId e) with Some u => u | None => "anonymous" end)
    (e_isCompleted e).

(** [data.confidence || 0.5] *)
Definition confidence_or_default (c : Q) : Q := if Qeq_bool c 0 then 1 # 2 else c.

(** [docToEntry].  [EntryData]'s optional fields cannot tell a [null]
    from an absent field: a [None] read back here stands for the [null]
    that [entryToDoc] stored ([|| null]), which the source returns as
    [null], not [undefined]. *)
Definition docToEntry (docId : string) (d : Doc) : Entry :=
  mkEntry docId
    (mkEntryData (d_createdAt d) (d_updatedAt d) (d_content d) (d_translatedContent d)
       (d_detectedLanguage d) (d_category d)
       (match d_tags d with Some t => t | None => [] end)
       (d_dueDate d) (d_priority d) (d_actionItems d) (d_language d) (d_codeType d)
       (d_containsSlang d) (d_slangTerms d) (confidence_or_default (d_confidence d))
       (d_reasoning d) (Some (d_userId d)) (d_isCompleted d)).

(** The confidence indicator of [EntryCard] (entry-card.tsx). *)
Definition confidenceLabel (c : Q) : string :=
  if Qle_bool (8 # 10) c then "High" else if Qle_bool (5 # 10) c then "Medium" else "Low".

End EntryDoc.

(** ** Category counts and bulk deletion (src/lib/entry-service.ts) *)

Module Service.

(** [counts[k] = (counts[k] || 0) + 1] on a JS object seen as an
    association list (a new key is appended). *)
Fixpoint bump (k : string) (m : list (string * nat)) : list (string * nat) :=
  match m with
  | [] => [(k, 1%nat)]
  | (k', v) :: t => if String.eqb k k' then (k', S v) :: t else (k', v) :: bump k t
  end.

Fixpoint lookup (k : string) (m : list (string * nat)) : option nat :=
  match m with
  | [] => None
  | (k', v) :: t => if String.eqb k k' then Some v else lookup k t
  end.

Definition initial_counts : list (string * nat) :=
  map (fun c => (category_name c, 0%nat)) all_categories.

(** [getEntriesCountByCategory]: [fetched] is the result of
    [getEntries], [None] when it throws (the [catch] returns [{}]). *)
Definition getEntriesCountByCategory (fetched : option (list Entry)) : list (string * nat) :=
  match fetched with
  | None => []
  | Some entries =>
      fold_left (fun counts entry => bump (category_name (e_category (data entry))) counts)
        entries initial_counts
  end.

Section Delete.
Variable Doc : Type.

Definition batchSize : nat := 500.

(** [for (let i = 0; i < docs.length; i += batchSize)
       chunks.push(docs.slice(i, i + batchSize))], with [fuel] bounding
    the iterations. *)
Fixpoint chunk_loop (fuel i : nat) (docs : list Doc) : list (list Doc) :=
  match fuel with
  | O => []
  | S fuel' =>
      if Nat.ltb i (List.length docs)
      then firstn batchSize (skipn i docs) :: chunk_loop fuel' (i + batchSize) docs
      else []
  end.

Definition chunks (docs : list Doc) : list (list Doc) := chunk_loop (List.length docs) 0 docs.

(** The sequential [batch.commit()] loop: commit number [k] fails when
    [fails k]; the first failure ends the loop (the [catch] rethrows).
    Returns the documents deleted and whether the loop completed. *)
Fixpoint commit_all (fails : nat -> bool) (k : nat) (cs : list (list Doc)) : list Doc * bool :=
  match cs with
  | [] => ([], true)
  | c :: rest =>
      if fails k then ([], false)
      else let '(deleted, ok) := commit_all fails (S k) rest in ((c ++ deleted)%list, ok)
  end.

(** [deleteAllEntries] after the query returned [docs]. *)
Definition deleteAllEntries (docs : list Doc) (fails : nat -> bool) : list Doc * bool :=
  match docs with
  | [] => ([], true)
  | _ => commit_all fails 0 (chunks docs)
  end.

End Delete.
Arguments chunks {Doc} docs.
Arguments chunk_loop {Doc} fuel i docs.
Arguments commit_all {Doc} fails k cs.
Arguments deleteAllEntries {Doc} docs fails.

End Service.

(** ** Entry list filtering (the page component holding [filteredEntries]) *)

Module EntryList.

Inductive CategoryFilter := AllCategories | OnlyCategory (c : EntryCategory).

Definition category_eqb (a b : EntryCategory) : bool :=
  String.eqb (category_name a) (category_name b).

Definition filteredEntries (entries : list Entry) (selectedCategory : CategoryFilter)
  (searchQuery : string) : list Entry :=
  let result := match selectedCategory with
                | AllCategories => entries
                | OnlyCategory c => filter (fun e => category_eqb (e_category (data e)) c) entries
                end in
  if negb (falsy_str (trim searchQuery)) then Search.localSearch searchQuery result else result.

(** [entryCounts]: [all] first, then the six categories, each entry
    adding one to its category's count (its key is always present). *)
Definition entryCounts (entries : list Entry) : list (string * nat) :=
  fold_left (fun counts entry => Service.bump (category_name (e_category (data entry))) counts)
    entries (("all", List.length entries) :: Service.initial_counts).

(** [handleDeleteEntry]: [prevEntries.filter(e => e.id !== entryId)]. *)
Definition handleDeleteEntry (entryId : string) (entries : list Entry) : list Entry :=
  filter (fun e => negb (String.eqb (id e) entryId)) entries.

(** [{ ...e, isCompleted: newIsCompleted }] *)
Definition with_isCompleted (e : Entry) (b : bool) : Entry :=
  let d := data e in
  mkEntry (id e)
    (mkEntryData (createdAt d) (updatedAt d) (content d) (e_translatedContent d)
       (e_detectedLanguage d) (e_category d) (e_tags d) (e_dueDate d) (e_priority d)
       (e_actionItems d) (e_language d) (e_codeType d) (e_containsSlang d)
       (e_slangTerms d) (e_confidence d) (e_reasoning d) (userId d) b).

(** [handleToggleCompletion]: [prevEntries.map(e => e.id === entryId ?
    { ...e, isCompleted: newIsCompleted } : e)]. *)
Definition handleToggleCompletion (entryId : string) (newIsCompleted : bool)
  (entries : list Entry) : list Entry :=
  map (fun e => if String.eqb (id e) entryId then with_isCompleted e newIsCompleted else e)
    entries.

End EntryList.

(** * Properties *)

(** ** Single-entry classifier *)

Module AutoTagProps.
Import AutoTag.
Local Open Scope Q_scope.

Definition valid_record (input : string) (r : AutoTagEntryOutput) : Prop :=
  In (category r) all_categories
  /\ (exists c, confidence r = Some c /\ 0 <= c /\ c <= 1)
  /\ translatedContent r <> "".

Lemma category_in_all (c : EntryCategory) : In c all_categories.
Proof. destruct c; simpl; tauto. Qed.

Lemma falsy_str_false (s : string) : falsy_str s = false -> s <> "".
Proof. unfold falsy_str. intros H E; subst; discriminate. Qed.

Lemma confidence_reasonable (q : Q) :
  confidence_unreasonable (Some q) = false -> 0 <= q /\ q <= 1.
Proof.
  simpl. unfold Qlt_bool. intros H.
  apply orb_false_elim in H as [H H3]. apply orb_false_elim in H as [_ H2].
  apply negb_false_iff in H2, H3.
  split; apply Qle_bool_iff; assumption.
Qed.

Lemma getFallbackResult_valid (input : string) :
  input <> "" -> valid_record input (getFallbackResult input).
Proof.
  intros Hne. unfold getFallbackResult, valid_record.
  repeat match goal with |- context [if ?b then _ else _] => destruct b end;
    simpl; (split; [apply category_in_all | split; [eexists; split; [reflexivity | ] | exact Hne]]);
    split; unfold Qle; simpl; lia.
Qed.

Lemma validateAndEnhanceOutput_valid (output : AutoTagEntryOutput) (input : string) :
  input <> "" -> valid_record input (validateAndEnhanceOutput output input).
Proof.
  intros Hne. unfold validateAndEnhanceOutput.
  set (o1 := if confidence_unreasonable (confidence output)
             then set_confidence output (7 # 10) else output).
  assert (Hc1 : exists c, confidence o1 = Some c /\ 0 <= c /\ c <= 1).
  { subst o1. destruct (confidence_unreasonable (confidence output)) eqn:E.
    - exists (7 # 10). simpl. split; [reflexivity | split; unfold Qle; simpl; lia].
    - destruct (confidence output) as [q|] eqn:Eq; [|discriminate].
      exists q. split; [reflexivity | apply confidence_reasonable; exact E]. }
  set (o2 := match tags o1 with [] => set_tags o1 (extractBasicTags input) | _ => o1 end).
  assert (Hc2 : confidence o2 = confidence o1 /\ category o2 = category o1).
  { subst o2. destruct (tags o1); split; reflexivity. }
  set (o3 := if falsy_str (translatedContent o2) || String.eqb (trim (translatedContent o2)) ""
             then set_translatedContent o2 input else o2).
  assert (Hc3 : confidence o3 = confidence o2 /\ translatedContent o3 <> "").
  { subst o3. destruct (falsy_str (translatedContent o2)) eqn:E1; simpl.
    - split; [reflexivity | exact Hne].
    - destruct (String.eqb (trim (translatedContent o2)) ""); simpl.
      + split; [reflexivity | exact Hne].
      + split; [reflexivity | apply falsy_str_false; exact E1]. }
  destruct Hc2 as [Hc2 _]. destruct Hc3 as [Hc3 Ht3].
  destruct (reasoning_missing (reasoning o3)); unfold valid_record; simpl;
    (split; [apply category_in_all | split; [ | exact Ht3]]);
    rewrite Hc3, Hc2; exact Hc1.
Qed.

Lemma loop_valid (input : string) oracle jitter :
  input <> "" -> forall fuel attempt, valid_record input (run_out (loop input oracle jitter fuel attempt)).
Proof.
  intros Hne fuel. induction fuel as [|fuel IH]; intros attempt; simpl.
  - apply getFallbackResult_valid; exact Hne.
  - destruct (oracle attempt) as [o|e]; simpl.
    + apply validateAndEnhanceOutput_valid; exact Hne.
    + match goal with |- context [if ?b then _ else _] => destruct b end; simpl.
      * apply IH.
      * apply getFallbackResult_valid; exact Hne.
Qed.

(** C1: for every non-empty input and every behaviour of the oracle
    (outputs, missing outputs, errors on every attempt), the record
    returned by [autoTagEntry] has a category of the six-value
    enumeration, a confidence in [0,1] and a non-empty
    [translatedContent]. *)
Theorem autoTagEntry_valid_record (input : string)
  (oracle : nat -> OracleResponse AutoTagEntryOutput) (jitter : nat -> Q) :
  input <> "" ->
  In (category (autoTagEntry input oracle jitter)) all_categories
  /\ (exists c, confidence (autoTagEntry input oracle jitter) = Some c /\ 0 <= c /\ c <= 1)
  /\ translatedContent (autoTagEntry input oracle jitter) <> "".
Proof.
  intros Hne. exact (loop_valid input oracle jitter Hne maxRetries 0).
Qed.

Lemma autoTagEntry_valid_record_witness :
  "x" <> "" /\
  In (category (autoTagEntry "x" (fun _ => Failure (mkErr (Some 503%Z) None)) (fun _ => 0)))
     all_categories.
Proof.
  split; [discriminate |].
  apply (autoTagEntry_valid_record "x" (fun _ => Failure (mkErr (Some 503%Z) None)) (fun _ => 0)).
  discriminate.
Defined.

End AutoTagProps.

(** ** Rule-based fallback and post-validation *)

Module FallbackProps.
Import AutoTag AutoTagProps.
Local Open Scope Q_scope.

(** The fallback's keyword families, in the order the spec lists them. *)
Definition fallback_family_category (l : string) : EntryCategory :=
  if existsb (includes l) ["function"; "const"; "import"] then code_snippet
  else if existsb (includes l) ["app"; "build"; "develop"] then idea
  else if existsb (includes l) ["learn"; "til"; "discovered"] then learning_note
  else if existsb (includes l) ["bug"; "fix"; "error"] then bug_fix
  else if existsb (includes l) ["task"; "todo"; "reminder"] then task
  else general.

Definition family_confidence (c : EntryCategory) : Q :=
  match c with
  | code_snippet => 6 # 10
  | general => 4 # 10
  | _ => 5 # 10
  end.

Definition fallback_shape (input : string) (r : AutoTagEntryOutput) : Prop :=
  category r = fallback_family_category (toLowerCase input)
  /\ detectedLanguage r = En
  /\ translatedContent r = input
  /\ containsSlang r = false
  /\ confidence r = Some (family_confidence (category r)).

Lemma existsb3 (f : string -> bool) (a b c : string) :
  existsb f [a; b; c] = f a || f b || f c.
Proof. simpl. rewrite orb_false_r, orb_assoc. reflexivity. Qed.

Lemma extractBasicTags_nonempty (input : string) : extractBasicTags input <> [].
Proof.
  unfold extractBasicTags.
  destruct (firstn 5 _) eqn:E; discriminate.
Qed.

Lemma getFallbackResult_shape (input : string) :
  fallback_shape input (getFallbackResult input).
Proof.
  unfold getFallbackResult, fallback_shape, fallback_family_category.
  rewrite !existsb3.
  repeat match goal with |- context [if ?b then _ else _] => destruct b end;
    simpl; repeat split.
Qed.

Lemma getFallbackResult_fields (input : string) :
  tags (getFallbackResult input) = extractBasicTags input
  /\ translatedContent (getFallbackResult input) = input
  /\ reasoning (getFallbackResult input) = Some fallback_reasoning.
Proof.
  unfold getFallbackResult.
  repeat match goal with |- context [if ?b then _ else _] => destruct b end;
    repeat split.
Qed.

Lemma validate_fallback_same (input : string) :
  let f := getFallbackResult input in
  let r := validateAndEnhanceOutput f input in
  category r = category f /\ detectedLanguage r = detectedLanguage f
  /\ translatedContent r = translatedContent f /\ containsSlang r = containsSlang f
  /\ confidence r = confidence f.
Proof.
  intros f r.
  assert (Hconf : confidence_unreasonable (confidence f) = false).
  { destruct (getFallbackResult_shape input) as (_ & _ & _ & _ & Hc).
    fold f in Hc. rewrite Hc. destruct (category f); reflexivity. }
  destruct (getFallbackResult_fields input) as (Ht & Htc & Hr0).
  fold f in Ht, Htc, Hr0.
  assert (Htags : tags f <> []) by (rewrite Ht; apply extractBasicTags_nonempty).
  assert (Hr : reasoning_missing (reasoning f) = false) by (rewrite Hr0; reflexivity).
  subst r. unfold validateAndEnhanceOutput. rewrite Hconf.
  destruct (tags f) eqn:Et; [contradiction|].
  destruct (falsy_str (translatedContent f) || _); simpl;
    [rewrite Hr; simpl; repeat split; congruence | rewrite Hr; repeat split].
Qed.

(** C5: on the rule-based fallback path (the [catch] returns
    [getFallbackResult input]; a missing oracle output goes through
    [validateAndEnhanceOutput (getFallbackResult input) input]) the
    category is the first matching keyword family over the lowercased
    input, in the order code, idea, learning note, bug fix, task, else
    general; the language is English, the translation is the input
    unchanged, the slang flag is false, and the confidence is the fixed
    value of the family matched (0.6 code, 0.5 other families, 0.4
    general), between 0.4 and 0.6. *)
Theorem fallback_rule_based (input : string) :
  fallback_shape input (getFallbackResult input)
  /\ fallback_shape input (validateAndEnhanceOutput (getFallbackResult input) input)
  /\ (forall c, 4 # 10 <= family_confidence c /\ family_confidence c <= 6 # 10).
Proof.
  split; [apply getFallbackResult_shape|]. split.
  - destruct (getFallbackResult_shape input) as (H1 & H2 & H3 & H4 & H5).
    destruct (validate_fallback_same input) as (E1 & E2 & E3 & E4 & E5).
    unfold fallback_shape. rewrite E1, E2, E3, E4, E5. repeat split; assumption.
  - intros c. destruct c; simpl; split; unfold Qle; simpl; lia.
Qed.

(** A sample oracle output with no tags, used below. *)
Definition untagged_output : AutoTagEntryOutput :=
  mkOut En "" general [] None None None None None false None (Some (9 # 10)) None None.

(** C6 (counterexample): the tags derived for an empty tag list are not
    distinct: for the raw text "test test" they are ["test"; "test"]. *)
Lemma validate_tags_not_distinct :
  tags (validateAndEnhanceOutput untagged_output "test test") = ["test"; "test"]
  /\ ~ NoDup (tags (validateAndEnhanceOutput untagged_output "test test")).
Proof.
  assert (E : tags (validateAndEnhanceOutput untagged_output "test test") = ["test"; "test"])
    by reflexivity.
  split; [exact E|]. rewrite E. intros H. inversion H; subst. apply H2. left. reflexivity.
Qed.

Ltac split_validate tg :=
  unfold validateAndEnhanceOutput; simpl;
  destruct confidence_unreasonable; simpl; destruct tg; simpl;
  repeat (match goal with |- context [if ?b then _ else _] => destruct b end; simpl);
  reflexivity.

Lemma validate_confidence_step (output : AutoTagEntryOutput) (input : string) :
  confidence (validateAndEnhanceOutput output input)
  = if confidence_unreasonable (confidence output) then Some (7 # 10) else confidence output.
Proof. destruct output as [? ? ? tg]; split_validate tg. Qed.

Lemma validate_tags_step (output : AutoTagEntryOutput) (input : string) :
  tags (validateAndEnhanceOutput output input)
  = match tags output with [] => extractBasicTags input | t => t end.
Proof. destruct output as [? ? ? tg]; split_validate tg. Qed.

Lemma validate_category_step (output : AutoTagEntryOutput) (input : string) :
  category (validateAndEnhanceOutput output input) = category output.
Proof. destruct output as [? ? ? tg]; split_validate tg. Qed.

Lemma validate_translated_step (output : AutoTagEntryOutput) (input : string) :
  translatedContent (validateAndEnhanceOutput output input)
  = if falsy_str (translatedContent output) || String.eqb (trim (translatedContent output)) ""
    then input else translatedContent output.
Proof. destruct output as [? ? ? tg]; split_validate tg. Qed.

Lemma validate_reasoning_step (output : AutoTagEntryOutput) (input : string) :
  reasoning (validateAndEnhanceOutput output input)
  = if reasoning_missing (reasoning output)
    then Some ("Categorized as " ++ category_name (category output) ++ " based on content analysis")
    else reasoning output.
Proof.
  destruct output as [? tc ? tg ? ? ? ? ? ? ? ? rs].
  unfold validateAndEnhanceOutput; simpl.
  destruct confidence_unreasonable; simpl; destruct tg; simpl;
    destruct (falsy_str tc || String.eqb (trim tc) ""); simpl;
    destruct rs as [[|]|]; reflexivity.
Qed.

Lemma confidence_unreasonable_in_range (q : Q) :
  ~ q == 0 -> 0 <= q -> q <= 1 -> confidence_unreasonable (Some q) = false.
Proof.
  intros H0 H1 H2. simpl. unfold Qlt_bool.
  destruct (Qeq_bool q 0) eqn:E; [apply Qeq_bool_iff in E; contradiction|].
  apply Qle_bool_iff in H1, H2. rewrite H1, H2. reflexivity.
Qed.

Lemma confidence_unreasonable_out_of_range (q : Q) :
  q < 0 \/ 1 < q -> confidence_unreasonable (Some q) = true.
Proof.
  intros H. simpl. unfold Qlt_bool.
  destruct H as [H|H].
  - destruct (Qle_bool 0 q) eqn:E.
    + apply Qle_bool_iff in E. exfalso. apply (Qlt_not_le q 0); assumption.
    + rewrite orb_true_iff. left. rewrite orb_true_iff. right. reflexivity.
  - destruct (Qle_bool q 1) eqn:E.
    + apply Qle_bool_iff in E. exfalso. apply (Qlt_not_le 1 q); assumption.
    + rewrite orb_true_iff. right. reflexivity.
Qed.

(** C6 (amended): on oracle success, [validateAndEnhanceOutput] keeps
    the category; it sets the confidence to 0.7 when the oracle's
    confidence is missing or outside [0,1] and keeps a non-zero
    in-range confidence unchanged; it replaces an empty tag list by the
    first (at most 5) tokens of the lowercased raw text split on
    whitespace that are longer than 3 characters, in order and with
    repetitions kept, or by ["general"] when there is none, and keeps a
    non-empty tag list; it replaces an empty translation by the raw input;
    it replaces a missing reasoning by "Categorized as <category> based
    on content analysis". *)
Theorem validate_repair (output : AutoTagEntryOutput) (input : string) :
  (forall q, confidence output = Some q -> ~ q == 0 -> 0 <= q -> q <= 1 ->
     confidence (validateAndEnhanceOutput output input) = Some q)
  /\ ((confidence output = None \/ exists q, confidence output = Some q /\ (q < 0 \/ 1 < q)) ->
      confidence (validateAndEnhanceOutput output input) = Some (7 # 10))
  /\ (tags output = [] ->
      tags (validateAndEnhanceOutput output input)
      = match firstn 5 (filter (fun w => Nat.ltb 3 (String.length w))
                               (split_ws (toLowerCase input))) with
        | [] => ["general"]
        | ks => ks
        end)
  /\ (tags output <> [] -> tags (validateAndEnhanceOutput output input) = tags output)
  /\ (translatedContent output = "" -> translatedContent (validateAndEnhanceOutput output input) = input)
  /\ (reasoning output = None ->
      reasoning (validateAndEnhanceOutput output input)
      = Some ("Categorized as " ++ category_name (category output) ++ " based on content analysis"))
  /\ category (validateAndEnhanceOutput output input) = category output.
Proof.
  rewrite validate_confidence_step, validate_tags_step, validate_translated_step,
    validate_reasoning_step, validate_category_step.
  repeat split.
  - intros q Hq H0 H1 H2. rewrite Hq, confidence_unreasonable_in_range; auto.
  - intros [Hn | (q & Hq & Hr)].
    + rewrite Hn. reflexivity.
    + rewrite Hq, confidence_unreasonable_out_of_range; auto.
  - intros Ht. rewrite Ht. unfold extractBasicTags. destruct (firstn _ _); reflexivity.
  - intros Ht. destruct (tags output); [contradiction | reflexivity].
  - intros Ht. rewrite Ht. reflexivity.
  - intros Hr. rewrite Hr. reflexivity.
Qed.

Lemma validate_repair_witness :
  confidence (validateAndEnhanceOutput untagged_output "test test") = Some (9 # 10)
  /\ tags (validateAndEnhanceOutput untagged_output "test test") = ["test"; "test"].
Proof.
  destruct (validate_repair untagged_output "test test") as (Hc & _ & Ht & _).
  split.
  - apply Hc; [reflexivity | unfold Qeq; simpl; lia | unfold Qle; simpl; lia
              | unfold Qle; simpl; lia].
  - rewrite Ht; reflexivity.
Defined.

End FallbackProps.

(** ** Retry policy *)

Module RetryProps.
Local Open Scope Q_scope.

Definition deadline_error : OracleError := mkErr None (Some "DEADLINE_EXCEEDED").
Definition exhausted_error : OracleError := mkErr None (Some "RESOURCE_EXHAUSTED").

(** C2 (code_bug evaluation): an oracle that fails on every attempt with
    a deadline-exceeded error.  The single-entry flow retries it (3 calls,
    delays 1000 + 0 and 2000 + 0 ms with zero jitter); the bulk flow does
    not (1 call, no delay, the error is rethrown), because its
    [isRetryableError] does not test "DEADLINE_EXCEEDED".  Likewise for
    "RESOURCE_EXHAUSTED": the bulk flow tests the lowercase
    "resource exhausted" instead. *)
Theorem bulk_deadline_not_retried :
  run_calls (AutoTag.autoTagEntryFlow "x" (fun _ => Failure deadline_error) (fun _ => 0)) = 3%nat
  /\ run_delays (AutoTag.autoTagEntryFlow "x" (fun _ => Failure deadline_error) (fun _ => 0))
     = [1000; 2000]
  /\ run_calls (Bulk.bulkAutoTagFlow (fun _ => Failure deadline_error) (fun _ => 0)) = 1%nat
  /\ run_delays (Bulk.bulkAutoTagFlow (fun _ => Failure deadline_error) (fun _ => 0)) = []
  /\ run_out (Bulk.bulkAutoTagFlow (fun _ => Failure deadline_error) (fun _ => 0))
     = inr deadline_error
  /\ run_calls (AutoTag.autoTagEntryFlow "x" (fun _ => Failure exhausted_error) (fun _ => 0)) = 3%nat
  /\ run_calls (Bulk.bulkAutoTagFlow (fun _ => Failure exhausted_error) (fun _ => 0)) = 1%nat.
Proof. repeat split; vm_compute; reflexivity. Qed.

End RetryProps.

(** ** Bulk ingestion *)

Module BulkProps.
Import Actions.

Lemma persist_all_saved_in (fails : nat -> bool) (idx : nat) (recs : list EntryData) :
  forall e, In e (fst (persist_all fails idx recs)) -> In e recs.
Proof.
  revert idx. induction recs as [|r rs IH]; intros idx e Hin; simpl in *; [contradiction|].
  destruct (persist_all fails (S idx) rs) as [saved ok] eqn:E.
  specialize (IH (S idx) e). rewrite E in IH. simpl in IH.
  destruct (fails idx); simpl in Hin.
  - right. apply IH. exact Hin.
  - destruct Hin as [Hin|Hin]; [left; exact Hin | right; apply IH; exact Hin].
Qed.

Lemma persist_all_no_failure (fails : nat -> bool) (idx : nat) (recs : list EntryData) :
  (forall i, fails i = false) -> persist_all fails idx recs = (recs, true).
Proof.
  intros Hf. revert idx. induction recs as [|r rs IH]; intros idx; simpl; [reflexivity|].
  rewrite IH, Hf. reflexivity.
Qed.

Lemma persist_all_failed (fails : nat -> bool) (idx : nat) (recs : list EntryData) :
  snd (persist_all fails idx recs) = false -> exists i, fails i = true.
Proof.
  revert idx. induction recs as [|r rs IH]; intros idx H; simpl in *; [discriminate|].
  destruct (persist_all fails (S idx) rs) as [saved ok] eqn:E.
  destruct (fails idx) eqn:Ef.
  - exists idx. exact Ef.
  - simpl in H. apply (IH (S idx)). rewrite E. exact H.
Qed.

(** Whitespace-only strings. *)
Fixpoint all_ws (s : string) : bool :=
  match s with
  | EmptyString => true
  | String c r => is_ws c && all_ws r
  end.

Lemma trimStart_empty (s : string) : trimStart s = "" -> all_ws s = true.
Proof.
  induction s as [|c r IH]; simpl; [reflexivity|].
  destruct (is_ws c); simpl; [exact IH | discriminate].
Qed.

Lemma trimStart_shape (s : string) :
  trimStart s = "" \/ exists c r, trimStart s = String c r /\ is_ws c = false.
Proof.
  induction s as [|c r IH]; simpl; [left; reflexivity|].
  destruct (is_ws c) eqn:E; [exact IH | right; exists c, r; split; [reflexivity | exact E]].
Qed.

Lemma trim_empty_all_ws (s : string) : trim s = "" -> all_ws s = true.
Proof.
  unfold trim. intros H. apply trimStart_empty.
  destruct (trimStart_shape s) as [E | (c & r & E & Hc)]; [exact E|].
  rewrite E in H. simpl in H. rewrite Hc in H. simpl in H. discriminate.
Qed.

Lemma all_ws_trim (s : string) : all_ws s = true -> trim s = "".
Proof.
  unfold trim. intros H. enough (E : trimStart s = "") by (rewrite E; reflexivity).
  induction s as [|c r IH]; simpl in *; [reflexivity|].
  apply andb_prop in H as [H1 H2]. rewrite H1. apply IH; exact H2.
Qed.

Lemma split_char_all_ws (sep : ascii) (s : string) :
  all_ws s = true -> Forall (fun p => all_ws p = true) (split_char sep s).
Proof.
  induction s as [|c r IH]; intros H; simpl in *.
  - constructor; [reflexivity | constructor].
  - apply andb_prop in H as [Hc Hr]. specialize (IH Hr).
    destruct (Ascii.eqb c sep).
    + constructor; [reflexivity | exact IH].
    + destruct (split_char sep r) as [|h t].
      * constructor; [simpl; rewrite Hc; reflexivity | constructor].
      * inversion IH; subst. constructor; [simpl; rewrite Hc; assumption | assumption].
Qed.

Lemma backupEntries_blank (raw : string) : trim raw = "" -> backupEntries raw = [].
Proof.
  intros H. apply trim_empty_all_ws in H.
  unfold backupEntries.
  induction (split_char_all_ws (ascii_of_nat 10) raw H) as [|p ps Hp _ IH]; simpl; [reflexivity|].
  rewrite (all_ws_trim p Hp). simpl. exact IH.
Qed.

Lemma fallback_path_blank (fails : nat -> bool) (now : Z) (raw : string) idx db :
  trim raw = "" -> fallback_path fails now raw idx db = (BOk 0, db).
Proof.
  intros H. unfold fallback_path. rewrite (backupEntries_blank raw H). simpl.
  rewrite app_nil_r. reflexivity.
Qed.

Lemma backupEntries_spec (raw l : string) :
  In l (backupEntries raw)
  <-> exists p, In p (split_char (ascii_of_nat 10) raw) /\ l = trim p /\ l <> "".
Proof.
  unfold backupEntries. rewrite filter_In, in_map_iff. split.
  - intros [(p & Ep & Hp) Hl]. exists p. split; [exact Hp|]. split; [symmetry; exact Ep|].
    intros E. subst l. rewrite E in Hl. discriminate.
  - intros (p & Hp & El & Hne). split; [exists p; split; [symmetry; exact El | exact Hp]|].
    destruct l; [contradiction | reflexivity].
Qed.

Lemma persist_all_ok (fails : nat -> bool) (idx : nat) (recs : list EntryData) :
  snd (persist_all fails idx recs)
  = forallb (fun i => negb (fails i)) (seq idx (List.length recs)).
Proof.
  revert idx. induction recs as [|r rs IH]; intros idx; simpl; [reflexivity|].
  destruct (persist_all fails (S idx) rs) as [saved ok] eqn:E.
  specialize (IH (S idx)). rewrite E in IH. simpl in IH.
  destruct (fails idx); simpl; [reflexivity | exact IH].
Qed.

Lemma fallback_path_store (fails : nat -> bool) (now : Z) (raw : string) idx db :
  exists saved,
    snd (fallback_path fails now raw idx db) = (db ++ saved)%list
    /\ (forall e, In e saved -> In e (map (fallback_entry now) (backupEntries raw)))
    /\ ((forall i, fails i = false) ->
        saved = map (fallback_entry now) (backupEntries raw)
        /\ fst (fallback_path fails now raw idx db) = BOk (List.length saved))
    /\ (fst (fallback_path fails now raw idx db) = BErr -> exists i, fails i = true).
Proof.
  unfold fallback_path.
  pose proof (persist_all_saved_in fails idx (map (fallback_entry now) (backupEntries raw))) as Hin.
  pose proof (persist_all_failed fails idx (map (fallback_entry now) (backupEntries raw))) as Hfail.
  pose proof (persist_all_no_failure fails idx (map (fallback_entry now) (backupEntries raw))) as Hall.
  destruct (persist_all fails idx (map (fallback_entry now) (backupEntries raw))) as [saved ok] eqn:E.
  simpl in *. exists saved. split; [reflexivity|]. split; [exact Hin|]. split.
  - intros Hf. specialize (Hall Hf). injection Hall as Hs Hok. subst saved ok.
    split; [reflexivity | rewrite length_map; reflexivity].
  - destruct ok; [discriminate | intros _; apply Hfail; reflexivity].
Qed.

(** C3 (amended): when the bulk oracle call fails, or when it returns a
    single result for an input longer than 200 characters (the
    plausibility check), [bulkAddEntries] takes the newline fallback.  The lines are the pieces of the blob
    split on newlines, trimmed, the empty ones dropped; each line gives a
    record with content and translation equal to the line, language
    English, category general, the single tag "bulk-import-failed",
    confidence 0 and completion false.  These records are saved through
    the store (calls issued for every line): the store gains the ones
    whose save succeeded, and the result is the number of lines when
    every save succeeds and a failure otherwise. *)
Theorem bulk_fallback_on_oracle_failure (raw : string)
  (oracle : nat -> OracleResponse (list AutoTagEntryOutput)) (jitter : nat -> Q)
  (fails : nat -> bool) (now : Z) (db : list EntryData) :
  (exists e, run_out (Bulk.bulkAutoTagFlow oracle jitter) = inr e)
  \/ (exists r, run_out (Bulk.bulkAutoTagFlow oracle jitter) = inl [r]
                /\ (200 < String.length raw)%nat) ->
  bulkAddEntries raw oracle jitter fails now db = fallback_path fails now raw 0 db
  /\ (forall l, In l (backupEntries raw)
        <-> exists p, In p (split_char (ascii_of_nat 10) raw) /\ l = trim p /\ l <> "")
  /\ (forall l, content (fallback_entry now l) = l
        /\ e_translatedContent (fallback_entry now l) = Some l
        /\ e_detectedLanguage (fallback_entry now l) = En
        /\ e_category (fallback_entry now l) = general
        /\ e_tags (fallback_entry now l) = ["bulk-import-failed"]
        /\ e_confidence (fallback_entry now l) = 0%Q
        /\ e_isCompleted (fallback_entry now l) = false)
  /\ fst (fallback_path fails now raw 0 db)
     = (if forallb (fun i => negb (fails i)) (seq 0 (List.length (backupEntries raw)))
        then BOk (List.length (backupEntries raw)) else BErr)
  /\ (exists saved, snd (fallback_path fails now raw 0 db) = (db ++ saved)%list
        /\ forall r, In r saved -> In r (map (fallback_entry now) (backupEntries raw))).
Proof.
  intros Hflow. split; [|split; [apply backupEntries_spec | split; [intros l; repeat split |]]].
  - unfold bulkAddEntries. destruct (falsy_str (trim raw)) eqn:E.
    + unfold falsy_str in E. apply String.eqb_eq in E.
      rewrite fallback_path_blank by exact E. reflexivity.
    + destruct Hflow as [(e & Hflow) | (r & Hflow & Hlen)]; rewrite Hflow; [reflexivity|].
      simpl List.length. apply Nat.ltb_lt in Hlen. rewrite Hlen. reflexivity.
  - split.
    + unfold fallback_path.
      pose proof (persist_all_ok fails 0 (map (fallback_entry now) (backupEntries raw))) as Ok.
      destruct (persist_all fails 0 _) as [saved ok]. simpl in *.
      rewrite length_map in Ok. rewrite Ok. reflexivity.
    + destruct (fallback_path_store fails now raw 0 db) as (saved & H1 & H2 & _).
      exists saved. split; assumption.
Qed.

Definition permanent_error : OracleError := mkErr None (Some "invalid request").

(** C3 (counterexample): the fallback path is not guaranteed to succeed:
    it saves through the store, and with a store that rejects every save
    the bulk import of "a" after a permanent oracle error fails. *)
Lemma bulk_fallback_can_fail :
  fst (bulkAddEntries "a" (fun _ => Failure permanent_error) (fun _ => 0%Q)
         (fun _ => true) 0 []) = BErr.
Proof. vm_compute. reflexivity. Qed.

(** C4: when the oracle returns exactly one result for an input longer
    than 200 characters, [bulkAddEntries] does not save that result: it
    runs the newline fallback, and the store only gains fallback
    records. *)
Theorem bulk_single_result_large_input (raw : string) (r : AutoTagEntryOutput)
  (oracle : nat -> OracleResponse (list AutoTagEntryOutput)) (jitter : nat -> Q)
  (fails : nat -> bool) (now : Z) (db : list EntryData) :
  run_out (Bulk.bulkAutoTagFlow oracle jitter) = inl [r] ->
  (200 < String.length raw)%nat ->
  bulkAddEntries raw oracle jitter fails now db = fallback_path fails now raw 0 db
  /\ (forall e, In e (snd (bulkAddEntries raw oracle jitter fails now db)) ->
        In e db \/ In e (map (fallback_entry now) (backupEntries raw))).
Proof.
  intros Hflow Hlen.
  assert (E : bulkAddEntries raw oracle jitter fails now db = fallback_path fails now raw 0 db).
  { unfold bulkAddEntries. destruct (falsy_str (trim raw)) eqn:Et.
    - unfold falsy_str in Et. apply String.eqb_eq in Et.
      rewrite fallback_path_blank by exact Et. reflexivity.
    - rewrite Hflow. simpl List.length.
      apply Nat.ltb_lt in Hlen. rewrite Hlen. reflexivity. }
  split; [exact E|].
  intros e He. rewrite E in He.
  destruct (fallback_path_store fails now raw 0 db) as (saved & Hs & Hin & _).
  rewrite Hs in He. apply in_app_or in He as [He|He]; [left | right; apply Hin]; exact He.
Qed.

(** A 201-character blob of two lines. *)
Definition long_blob : string :=
  "buy milk and bread from the store near the office before going back home in the evening, also remember to pick up the dry cleaning
fix login bug in the payment page where the session expires too early; done".

Definition one_result : AutoTagEntryOutput :=
  mkOut En "summary" task ["summary"] None None None None None false None
    (Some (9 # 10)%Q) None None.

Lemma bulk_single_result_large_input_witness :
  (200 < String.length long_blob)%nat
  /\ bulkAddEntries long_blob (fun _ => Answer (Some [one_result])) (fun _ => 0%Q)
       (fun _ => false) 0 []
     = fallback_path (fun _ => false) 0 long_blob 0 [].
Proof.
  assert (Hl : (200 < String.length long_blob)%nat) by (vm_compute; lia).
  split; [exact Hl|].
  apply (bulk_single_result_large_input long_blob one_result (fun _ => Answer (Some [one_result]))
           (fun _ => 0%Q) (fun _ => false) 0 []); [reflexivity | exact Hl].
Defined.

Lemma bulk_fallback_on_oracle_failure_witness :
  bulkAddEntries "a
b" (fun _ => Failure permanent_error) (fun _ => 0%Q) (fun _ => false) 0 []
     = fallback_path (fun _ => false) 0 "a
b" 0 []
  /\ bulkAddEntries long_blob (fun _ => Answer (Some [one_result])) (fun _ => 0%Q)
       (fun _ => false) 0 []
     = fallback_path (fun _ => false) 0 long_blob 0 [].
Proof.
  split.
  - apply (bulk_fallback_on_oracle_failure _ _ _ _ _ _). left.
    exists permanent_error. reflexivity.
  - apply (bulk_fallback_on_oracle_failure _ _ _ _ _ _). right.
    exists one_result. split; [reflexivity | vm_compute; lia].
Defined.

(** Two oracle results and a two-line blob, used below. *)
Definition two_results : list AutoTagEntryOutput :=
  [mkOut En "buy milk" task ["milk"] None None None None None false None (Some (9 # 10)%Q) None None;
   mkOut En "fix login bug" bug_fix ["login"] None None None None None false None
     (Some (9 # 10)%Q) None (Some true)].

Definition two_line_blob : string := "a
b".

Lemma persist_all_from (fails : nat -> bool) (idx : nat) (recs : list EntryData) :
  (forall i, (idx <= i)%nat -> fails i = false) -> persist_all fails idx recs = (recs, true).
Proof.
  revert idx. induction recs as [|r rs IH]; intros idx Hf; simpl; [reflexivity|].
  rewrite IH by (intros i Hi; apply Hf; lia). rewrite (Hf idx (le_n idx)). reflexivity.
Qed.

Lemma persist_all_some_fail (fails : nat -> bool) (idx i : nat) (recs : list EntryData) :
  (idx <= i < idx + List.length recs)%nat -> fails i = true ->
  snd (persist_all fails idx recs) = false.
Proof.
  intros Hi Hf. rewrite persist_all_ok. apply not_true_iff_false. intros H.
  rewrite forallb_forall in H. specialize (H i ltac:(apply in_seq; lia)).
  rewrite Hf in H. discriminate.
Qed.

(** C8 (code_bug evaluation): a failed save on the oracle path of [bulkAddEntries] (inside the
    [try] that also covers the oracle call) sends the operation to the
    newline fallback meant for failed smart parsing; the oracle records
    already saved stay in the store, the fallback's saves are numbered
    after the oracle path's, and the count returned is the number of
    lines when the fallback saves succeed, not the number of records
    saved; when a fallback save fails, the operation fails. *)
Theorem bulk_save_failure_fallback (raw : string) (results : list AutoTagEntryOutput)
  (oracle : nat -> OracleResponse (list AutoTagEntryOutput)) (jitter : nat -> Q)
  (fails : nat -> bool) (now : Z) (db : list EntryData) :
  run_out (Bulk.bulkAutoTagFlow oracle jitter) = inl results ->
  trim raw <> "" ->
  results <> [] ->
  ~ (List.length results = 1%nat /\ (200 < String.length raw)%nat) ->
  snd (persist_all fails 0 (map (entry_of_result now) results)) = false ->
  bulkAddEntries raw oracle jitter fails now db
  = fallback_path fails now raw (List.length results)
      (db ++ fst (persist_all fails 0 (map (entry_of_result now) results)))%list
  /\ ((forall i, (List.length results <= i)%nat -> fails i = false) ->
      bulkAddEntries raw oracle jitter fails now db
      = (BOk (List.length (backupEntries raw)),
         (db ++ fst (persist_all fails 0 (map (entry_of_result now) results))
             ++ map (fallback_entry now) (backupEntries raw))%list))
  /\ ((exists i, (List.length results <= i
                  < List.length results + List.length (backupEntries raw))%nat
                 /\ fails i = true) ->
      fst (bulkAddEntries raw oracle jitter fails now db) = BErr).
Proof.
  intros Hflow Htrim Hne Hsingle Hfail.
  assert (E : bulkAddEntries raw oracle jitter fails now db
              = fallback_path fails now raw (List.length results)
                  (db ++ fst (persist_all fails 0 (map (entry_of_result now) results)))%list).
  { unfold bulkAddEntries.
    assert (Ef : falsy_str (trim raw) = false) by (apply String.eqb_neq; exact Htrim).
    rewrite Ef, Hflow.
    destruct results as [|r rs]; [contradiction|].
    assert (Ec : (Nat.eqb (List.length (r :: rs)) 1 && Nat.ltb 200 (String.length raw)) = false).
    { apply not_true_iff_false. intros H. apply andb_prop in H as [H1 H2].
      apply Hsingle. split; [apply Nat.eqb_eq; exact H1 | apply Nat.ltb_lt; exact H2]. }
    rewrite Ec.
    destruct (persist_all fails 0 (map (entry_of_result now) (r :: rs))) as [saved ok].
    simpl in Hfail |- *. subst ok. reflexivity. }
  split; [exact E|]. split.
  - intros Hf. rewrite E. unfold fallback_path.
    rewrite persist_all_from by exact Hf. rewrite app_assoc. reflexivity.
  - intros (i & Hi & Hfi). rewrite E. unfold fallback_path.
    pose proof (persist_all_some_fail fails (List.length results) i
                  (map (fallback_entry now) (backupEntries raw))) as Hs.
    rewrite length_map in Hs. specialize (Hs Hi Hfi).
    destruct (persist_all fails (List.length results) _) as [saved ok].
    simpl in Hs |- *. subst ok. reflexivity.
Qed.

(** With the blob "a\nb", two oracle results and a store whose second
    save fails, three records end up saved and the count returned is 2. *)
Lemma bulk_save_failure_fallback_witness :
  bulkAddEntries two_line_blob (fun _ => Answer (Some two_results)) (fun _ => 0%Q)
    (fun i => Nat.eqb i 1) 0 []
  = (BOk 2, (fst (persist_all (fun i => Nat.eqb i 1) 0 (map (entry_of_result 0) two_results))
             ++ map (fallback_entry 0) ["a"; "b"])%list)
  /\ List.length (fst (persist_all (fun i => Nat.eqb i 1) 0
                        (map (entry_of_result 0) two_results))) = 1%nat.
Proof.
  split; [|reflexivity].
  apply (proj1 (proj2 (bulk_save_failure_fallback two_line_blob two_results
           (fun _ => Answer (Some two_results)) (fun _ => 0%Q) (fun i => Nat.eqb i 1) 0 []
           eq_refl ltac:(discriminate) ltac:(discriminate)
           ltac:(intros [H _]; discriminate) eq_refl))).
  intros [|[|i]] Hi; simpl in Hi; [lia | lia | reflexivity].
Defined.

(** C10: on the oracle-success path of [bulkAddEntries] (non-blank
    input, a non-empty result list that is not a single result for an
    input longer than 200 characters) the records saved by that path
    come first in what the store gains, and each one has as content the
    oracle's [translatedContent] for its item, or "Empty Content" when
    that translation is empty: the content is never taken from anything
    but the oracle's translation. *)
Theorem bulk_success_content (raw : string) (results : list AutoTagEntryOutput)
  (oracle : nat -> OracleResponse (list AutoTagEntryOutput)) (jitter : nat -> Q)
  (fails : nat -> bool) (now : Z) (db : list EntryData) :
  run_out (Bulk.bulkAutoTagFlow oracle jitter) = inl results ->
  trim raw <> "" ->
  results <> [] ->
  ~ (List.length results = 1%nat /\ (200 < String.length raw)%nat) ->
  (exists rest, snd (bulkAddEntries raw oracle jitter fails now db)
                = (db ++ fst (persist_all fails 0 (map (entry_of_result now) results)) ++ rest)%list)
  /\ (forall e, In e (fst (persist_all fails 0 (map (entry_of_result now) results))) ->
        exists r, In r results
          /\ content e = (if String.eqb (translatedContent r) "" then "Empty Content"
                          else translatedContent r)
          /\ e_translatedContent e = Some (translatedContent r)).
Proof.
  intros Hflow Htrim Hne Hsingle. split.
  - unfold bulkAddEntries.
    assert (Ef : falsy_str (trim raw) = false) by (apply String.eqb_neq; exact Htrim).
    rewrite Ef, Hflow.
    destruct results as [|r rs]; [contradiction|].
    assert (Ec : (Nat.eqb (List.length (r :: rs)) 1 && Nat.ltb 200 (String.length raw)) = false).
    { apply not_true_iff_false. intros H. apply andb_prop in H as [H1 H2].
      apply Hsingle. split; [apply Nat.eqb_eq; exact H1 | apply Nat.ltb_lt; exact H2]. }
    rewrite Ec.
    destruct (persist_all fails 0 (map (entry_of_result now) (r :: rs))) as [saved1 ok].
    destruct ok; simpl.
    + exists []. rewrite app_nil_r. reflexivity.
    + destruct (fallback_path_store fails now raw (S (List.length rs)) (db ++ saved1)%list)
        as (saved2 & Hs & _).
      exists saved2. rewrite Hs, app_assoc. reflexivity.
  - intros e He. apply persist_all_saved_in in He.
    apply in_map_iff in He as (r & <- & Hr). exists r. split; [exact Hr|].
    unfold entry_of_result, falsy_str. simpl. split; reflexivity.
Qed.

Lemma bulk_success_content_witness :
  exists rest,
    snd (bulkAddEntries two_line_blob (fun _ => Answer (Some two_results)) (fun _ => 0%Q)
           (fun _ => false) 0 [])
    = ([] ++ fst (persist_all (fun _ => false) 0 (map (entry_of_result 0) two_results)) ++ rest)%list.
Proof.
  destruct (bulk_success_content two_line_blob two_results (fun _ => Answer (Some two_results))
              (fun _ => 0%Q) (fun _ => false) 0 []) as (H & _).
  - reflexivity.
  - discriminate.
  - discriminate.
  - simpl. intros [_ H]. apply Nat.ltb_lt in H. discriminate.
  - exact H.
Defined.

End BulkProps.

(** ** Local search *)

Module SearchProps.
Import Search.

Lemma lower_char_idem (c : ascii) : lower_char (lower_char c) = lower_char c.
Proof. destruct c as [[] [] [] [] [] [] [] []]; reflexivity. Qed.

Lemma is_ws_lower_char (c : ascii) : is_ws (lower_char c) = is_ws c.
Proof. destruct c as [[] [] [] [] [] [] [] []]; reflexivity. Qed.

Lemma toLowerCase_idem (s : string) : toLowerCase (toLowerCase s) = toLowerCase s.
Proof. induction s as [|c r IH]; simpl; [reflexivity|]. rewrite lower_char_idem, IH. reflexivity. Qed.

Lemma trimStart_lower (s : string) : trimStart (toLowerCase s) = toLowerCase (trimStart s).
Proof.
  induction s as [|c r IH]; simpl; [reflexivity|].
  rewrite is_ws_lower_char. destruct (is_ws c); [exact IH | reflexivity].
Qed.

Lemma eqb_empty_lower (s : string) : String.eqb (toLowerCase s) "" = String.eqb s "".
Proof. destruct s; reflexivity. Qed.

Lemma trimEnd_lower (s : string) : trimEnd (toLowerCase s) = toLowerCase (trimEnd s).
Proof.
  induction s as [|c r IH]; simpl; [reflexivity|].
  rewrite is_ws_lower_char, IH, eqb_empty_lower.
  destruct (is_ws c && String.eqb (trimEnd r) ""); reflexivity.
Qed.

Lemma trim_lower (s : string) : trim (toLowerCase s) = toLowerCase (trim s).
Proof. unfold trim. rewrite trimStart_lower, trimEnd_lower. reflexivity. Qed.

(** An entry with content "ab" and translation "cd". *)
Definition ab_cd_entry : Entry :=
  mkEntry "e1" (mkEntryData 0 0 "ab" (Some "cd") En general [] None None None None None
                  false None (9 # 10)%Q None (Some "anonymous") false).

(** The searchable text as the spec words it: the plain concatenation of
    the same fields, lowercased. *)
Definition spec_searchable (entry : Entry) : string :=
  let d := data entry in
  toLowerCase (String.concat ""
    ([content d;
      match e_translatedContent d with Some t => t | None => "" end;
      replace_all "_" " " (category_name (e_category d))]
     ++ e_tags d
     ++ [match e_reasoning d with Some r => r | None => "" end])%list).

(** C7 (counterexample): the code joins the fields with single spaces,
    not by plain concatenation: for content "ab" and translation "cd" the
    term "bc" occurs in the concatenation but the query "bc" keeps no
    entry. *)
Lemma localSearch_not_concatenation :
  includes (spec_searchable ab_cd_entry) "bc" = true
  /\ localSearch "bc" [ab_cd_entry] = [].
Proof. split; vm_compute; reflexivity. Qed.

(** C7 (amended): [localSearch] returns the entries unchanged for an empty or
    whitespace-only query; otherwise it keeps, in their order, exactly
    the entries whose searchable text (the lowercased join with single
    spaces of content,
    translation or "", category name with underscores as spaces, the
    tags and reasoning or "") contains every term, the terms being the
    whitespace-separated pieces of the lowercased query longer than one
    character.  The query's letter case does not matter.  It is a total
    function of its arguments: no oracle, no failure. *)
Theorem localSearch_spec (query : string) (entries : list Entry) :
  (trim query = "" -> localSearch query entries = entries)
  /\ (trim query <> "" ->
      localSearch query entries
      = filter (fun e => forallb (fun t => includes (searchableContent e) t)
                                 (search_terms query)) entries
      /\ forall e, In e (localSearch query entries)
           <-> In e entries /\ forall t, In t (split_ws (toLowerCase query)) ->
                 (1 < String.length t)%nat -> includes (searchableContent e) t = true)
  /\ localSearch (toLowerCase query) entries = localSearch query entries.
Proof.
  unfold localSearch, falsy_str. split; [|split].
  - intros H. rewrite H. reflexivity.
  - intros H. apply String.eqb_neq in H. rewrite H. split; [reflexivity|].
    intros e. rewrite filter_In, forallb_forall. unfold search_terms.
    split.
    + intros [Hin Hall]. split; [exact Hin|]. intros t Ht Hl. apply Hall.
      apply filter_In. split; [exact Ht | apply Nat.ltb_lt; exact Hl].
    + intros [Hin Hall]. split; [exact Hin|]. intros t Ht.
      apply filter_In in Ht as [Ht Hl]. apply Hall; [exact Ht | apply Nat.ltb_lt; exact Hl].
  - rewrite trim_lower, eqb_empty_lower. unfold search_terms. rewrite toLowerCase_idem.
    reflexivity.
Qed.

Lemma localSearch_spec_witness :
  localSearch "" [ab_cd_entry] = [ab_cd_entry]
  /\ localSearch "  AB  cd " [ab_cd_entry] = [ab_cd_entry]
  /\ localSearch "ab x" [ab_cd_entry] = [ab_cd_entry]
  /\ localSearch "bc" [ab_cd_entry] = [].
Proof.
  split; [apply (proj1 (localSearch_spec _ _)); reflexivity|].
  split; [|split].
  - rewrite (proj1 (proj1 (proj2 (localSearch_spec "  AB  cd " [ab_cd_entry]))
                 ltac:(let H := fresh in intros H; vm_compute in H; discriminate H))).
    vm_compute. reflexivity.
  - rewrite (proj1 (proj1 (proj2 (localSearch_spec "ab x" [ab_cd_entry]))
                 ltac:(let H := fresh in intros H; vm_compute in H; discriminate H))).
    vm_compute. reflexivity.
  - rewrite (proj1 (proj1 (proj2 (localSearch_spec "bc" [ab_cd_entry]))
                 ltac:(let H := fresh in intros H; vm_compute in H; discriminate H))).
    vm_compute. reflexivity.
Defined.

End SearchProps.

(** ** Relevance scorer *)

Module ScoreProps.
Import Score.
Local Open Scope Z_scope.

Lemma fold_left_add_shift (f : string -> Z) (l : list string) (acc : Z) :
  fold_left (fun a kw => a + f kw) l acc = acc + fold_right (fun kw s => f kw + s) 0 l.
Proof.
  revert acc. induction l as [|k ks IH]; intros acc; simpl; [lia|].
  rewrite IH. lia.
Qed.

Lemma keyword_points_nonneg (entry : Entry) (kw : string) : 0 <= keyword_points entry kw.
Proof.
  unfold keyword_points.
  repeat match goal with |- context [if ?b then _ else _] => destruct b end; lia.
Qed.

Lemma recency_bonus_tiers (age : Z) :
  (age < day_ms -> recency_bonus age = 3)
  /\ (day_ms <= age < 7 * day_ms -> recency_bonus age = 2)
  /\ (7 * day_ms <= age < 30 * day_ms -> recency_bonus age = 1)
  /\ (30 * day_ms <= age -> recency_bonus age = 0).
Proof.
  unfold recency_bonus, day_ms.
  repeat split; intros H;
  repeat match goal with |- context [if ?b then _ else _] => destruct b eqn:? end;
  rewrite ?Z.ltb_lt, ?Z.ltb_ge in *; lia.
Qed.

(** C9: the score is the sum over the keywords of +10 (in the content),
    +8 (in the translation), +6 (in some tag) and +4 (in the category
    name), each match case-insensitive and each keyword counted on its
    own, plus +5 once when the category is a candidate, plus exactly one
    recency tier (+3 below 1 day, +2 below 7 days, +1 below 30 days, +0
    from 30 days on); the score is never negative, and it is 0 when no
    keyword matches anything, the category is not a candidate and the
    entry is at least 30 days old. *)
Theorem score_spec (entry : Entry) (keywords : list string)
  (categories : list EntryCategory) (now : Z) :
  let d := data entry in
  let age := now - createdAt d in
  score entry keywords categories now
  = fold_right (fun kw s =>
      (if includes (toLowerCase (content d)) (toLowerCase kw) then 10 else 0)
      + (if includes (toLowerCase (match e_translatedContent d with Some t => t | None => "" end))
                     (toLowerCase kw) then 8 else 0)
      + (if existsb (fun t => includes (toLowerCase t) (toLowerCase kw)) (e_tags d) then 6 else 0)
      + (if includes (toLowerCase (category_name (e_category d))) (toLowerCase kw) then 4 else 0)
      + s) 0 keywords
    + (if existsb (category_eqb (e_category d)) categories then 5 else 0)
    + recency_bonus age
  /\ In (recency_bonus age) [0; 1; 2; 3]
  /\ 0 <= score entry keywords categories now
  /\ ((forall kw, In kw keywords -> keyword_points entry kw = 0) ->
      existsb (category_eqb (e_category d)) categories = false ->
      30 * day_ms <= age ->
      score entry keywords categories now = 0).
Proof.
  intros d age.
  assert (Hsum : score entry keywords categories now
                 = fold_right (fun kw s => keyword_points entry kw + s) 0 keywords
                   + (if existsb (category_eqb (e_category d)) categories then 5 else 0)
                   + recency_bonus age).
  { unfold score. rewrite fold_left_add_shift. reflexivity. }
  assert (Hnn : forall l, 0 <= fold_right (fun kw s => keyword_points entry kw + s) 0 l).
  { induction l as [|k ks IH]; simpl; [lia|].
    pose proof (keyword_points_nonneg entry k). lia. }
  assert (Hrec : In (recency_bonus age) [0; 1; 2; 3]).
  { unfold recency_bonus.
    repeat match goal with |- context [if ?b then _ else _] => destruct b end; simpl; tauto. }
  split; [rewrite Hsum; reflexivity|]. split; [exact Hrec|]. split.
  - rewrite Hsum. pose proof (Hnn keywords).
    assert (0 <= recency_bonus age) by (simpl in Hrec; lia).
    destruct (existsb _ _); lia.
  - intros Hkw Hcat Hage. rewrite Hsum, Hcat.
    rewrite (proj2 (proj2 (proj2 (recency_bonus_tiers age)))) by exact Hage.
    assert (Hz : fold_right (fun kw s => keyword_points entry kw + s) 0 keywords = 0).
    { clear -Hkw. induction keywords as [|k ks IH]; simpl; [reflexivity|].
      rewrite Hkw by (left; reflexivity).
      rewrite IH by (intros kw Hin; apply Hkw; right; exact Hin).
      reflexivity. }
    rewrite Hz. reflexivity.
Qed.

(** The spec's scenario: entry (a) "learning react hooks today", a
    learning note of age 0, keywords react, hooks, useState and the
    candidate category learning_note score 28. *)
Definition scenario_entry (content0 : string) (cat : EntryCategory) (created : Z) : Entry :=
  mkEntry "a" (mkEntryData created created content0 None En cat [] None None None None None
                 false None 1 None None false).

Example scenario_a :
  score (scenario_entry "learning react hooks today" learning_note 0)
        ["react"; "hooks"; "useState"] [learning_note] 0 = 28.
Proof. vm_compute. reflexivity. Qed.

Lemma score_spec_witness :
  score (scenario_entry "unrelated" general 0) ["react"; "hooks"] [learning_note]
        (40 * day_ms) = 0.
Proof.
  apply (proj2 (proj2 (proj2 (score_spec (scenario_entry "unrelated" general 0) ["react"; "hooks"]
                                 [learning_note] (40 * day_ms))))).
  - intros kw Hin. simpl in Hin.
    destruct Hin as [<- | [<- | []]]; vm_compute; reflexivity.
  - reflexivity.
  - vm_compute. discriminate.
Defined.

End ScoreProps.

(** * Further properties of the code *)

(** ** Retry loops *)

Module RetryShape.
Local Open Scope Q_scope.

Ltac split_oracle :=
  repeat match goal with
         | |- context [?oracle ?n] =>
             lazymatch n with O => idtac | S O => idtac | S (S O) => idtac end;
             match type of (oracle n) with
             | OracleResponse _ => let R := fresh "R" in destruct (oracle n) as [[?|]|?] eqn:R
             end
         | |- context [AutoTag.isRetryableError ?e] =>
             let H := fresh "H" in destruct (AutoTag.isRetryableError e) eqn:H
         | |- context [Bulk.isRetryableError ?e] =>
             let H := fresh "H" in destruct (Bulk.isRetryableError e) eqn:H
         end; simpl.

(** [autoTagEntryFlow] makes one to three oracle calls and sleeps once
    between consecutive calls; the delay before call k+1 is
    1000 * 2^k ms plus the jitter drawn then; every call but the last
    failed with a retryable error; and when fewer than three calls were
    made the last one gave an answer or a non-retryable error. *)
Theorem autoTag_retry_shape (input : string)
  (oracle : nat -> OracleResponse AutoTagEntryOutput) (jitter : nat -> Q) :
  let r := AutoTag.autoTagEntryFlow input oracle jitter in
  (1 <= run_calls r <= 3)%nat
  /\ List.length (run_delays r) = (run_calls r - 1)%nat
  /\ (forall k d, nth_error (run_delays r) k = Some d ->
        d = inject_Z (1000 * 2 ^ Z.of_nat k) + jitter k)
  /\ (forall k, (k + 1 < run_calls r)%nat ->
        exists e, oracle k = Failure e /\ AutoTag.isRetryableError e = true)
  /\ ((run_calls r < 3)%nat ->
      match oracle (run_calls r - 1)%nat with
      | Answer _ => True
      | Failure e => AutoTag.isRetryableError e = false
      end).
Proof.
  intros r. subst r. unfold AutoTag.autoTagEntryFlow. simpl.
  split_oracle;
  (split; [lia|]); (split; [reflexivity|]);
  (split; [intros [|[|k]] d Hd; simpl in Hd; try rewrite nth_error_nil in Hd; try discriminate; injection Hd as <-; reflexivity|]);
  (split; [intros [|[|k]] Hk; try lia; eexists; (split; [eassumption | assumption])|]);
  intros Hc; try lia; simpl;
  repeat match goal with H : ?o = _ |- context [?o] => rewrite H end; auto.
Qed.

(** [bulkAutoTagFlow] makes one to three oracle calls with the same
    delays; every call but the last failed (an error, or a missing output
    turned into the error "No output generated") with an error its
    [isRetryableError] accepts; the flow returns the last call's output
    when it gave one and otherwise fails with the last call's error. *)
Theorem bulk_retry_shape
  (oracle : nat -> OracleResponse (list AutoTagEntryOutput)) (jitter : nat -> Q) :
  let r := Bulk.bulkAutoTagFlow oracle jitter in
  (1 <= run_calls r <= 3)%nat
  /\ List.length (run_delays r) = (run_calls r - 1)%nat
  /\ (forall k d, nth_error (run_delays r) k = Some d ->
        d = inject_Z (1000 * 2 ^ Z.of_nat k) + jitter k)
  /\ (forall k, (k + 1 < run_calls r)%nat ->
        exists e, (oracle k = Failure e \/ (oracle k = Answer None
                     /\ e = mkErr None (Some "No output generated")))
                  /\ Bulk.isRetryableError e = true)
  /\ (forall o, run_out r = inl o -> oracle (run_calls r - 1)%nat = Answer (Some o))
  /\ (forall e, run_out r = inr e ->
        oracle (run_calls r - 1)%nat = Failure e
        \/ (oracle (run_calls r - 1)%nat = Answer None
            /\ e = mkErr None (Some "No output generated"))).
Proof.
  intros r. subst r. unfold Bulk.bulkAutoTagFlow. simpl.
  split_oracle;
  (split; [lia|]); (split; [reflexivity|]);
  (split; [intros [|[|k]] d Hd; simpl in Hd; try rewrite nth_error_nil in Hd; try discriminate; injection Hd as <-; reflexivity|]);
  (split; [intros [|[|k]] Hk; try lia; eexists;
           (split; [first [left; eassumption | right; (split; [eassumption | reflexivity])]
                   | assumption])|]);
  (split; intros ? Ho; try discriminate; injection Ho as <-; simpl;
   first [assumption | left; assumption | right; split; [assumption | reflexivity]]).
Qed.

End RetryShape.

(** ** Rule-based tags *)

Module TagProps.

Lemma in_firstn {A} (n : nat) (l : list A) (x : A) : In x (firstn n l) -> In x l.
Proof.
  intros H. rewrite <- (firstn_skipn n l). apply in_or_app. left. exact H.
Qed.

(** [extractBasicTags] returns one to five tags; either the single tag
    "general" or only whitespace-separated tokens of the lowercased text
    that are longer than three characters. *)
Theorem extractBasicTags_shape (input : string) :
  let tg := AutoTag.extractBasicTags input in
  (1 <= List.length tg <= 5)%nat
  /\ (tg = ["general"]
      \/ forall t, In t tg -> In t (split_ws (toLowerCase input)) /\ (3 < String.length t)%nat).
Proof.
  intros tg. subst tg. unfold AutoTag.extractBasicTags.
  destruct (firstn 5 _) as [|t ts] eqn:E.
  - split; [simpl; lia | left; reflexivity].
  - split.
    + pose proof (f_equal (@List.length string) E) as El.
      rewrite length_firstn in El. cbn [List.length] in El |- *. lia.
    + right. intros x Hx. rewrite <- E in Hx. apply in_firstn in Hx.
      apply filter_In in Hx as [Hx Hl]. split; [exact Hx | apply Nat.ltb_lt; exact Hl].
Qed.

End TagProps.

(** ** Single-entry capture ([addEntry]) *)

Module AddEntryProps.
Import AddEntry.
Local Open Scope Q_scope.

Lemma trim_nonblank_nonempty (s : string) : trim s <> "" -> s <> "".
Proof. intros H E. subst s. apply H. reflexivity. Qed.

Definition no_oracle : nat -> OracleResponse AutoTagEntryOutput :=
  fun _ => Failure (mkErr None None).

(** Blank input (empty after trimming) is rejected with "Content cannot
    be empty." and the store is left as it was. *)
Theorem addEntry_blank (content0 : string) oracle jitter fails now db :
  trim content0 = "" ->
  addEntry content0 oracle jitter fails now db = (AddFailed "Content cannot be empty.", db).
Proof. intros H. unfold addEntry. rewrite H. reflexivity. Qed.

Lemma addEntry_blank_witness :
  trim "  " = "" /\
  addEntry "  " no_oracle (fun _ => 0) (fun _ => false) 0%Z []
  = (AddFailed "Content cannot be empty.", []).
Proof.
  split; [reflexivity|]. apply addEntry_blank. reflexivity.
Defined.

(** When the first save succeeds, [addEntry] appends exactly one record
    to the store and returns it: its content is the raw input, both
    timestamps are [now], the owner is "anonymous", it is not completed,
    its category is one of the six, its confidence lies in [0,1] and its
    translated content is present and non-empty. *)
Theorem addEntry_saved (content0 : string) oracle jitter fails now db :
  trim content0 <> "" -> fails 0%nat = false ->
  exists e, addEntry content0 oracle jitter fails now db = (Added e, (db ++ [e])%list)
    /\ content e = content0 /\ createdAt e = now /\ updatedAt e = now
    /\ userId e = Some "anonymous" /\ e_isCompleted e = false
    /\ In (e_category e) all_categories
    /\ 0 <= e_confidence e <= 1
    /\ (exists t, e_translatedContent e = Some t /\ t <> "").
Proof.
  intros Ht Hf. unfold addEntry.
  assert (Ef : falsy_str (trim content0) = false) by (apply String.eqb_neq; exact Ht).
  rewrite Ef, Hf.
  pose proof (AutoTagProps.loop_valid content0 oracle jitter (trim_nonblank_nonempty _ Ht)
                AutoTag.maxRetries 0) as (Hc & (c & Hconf & H0 & H1) & Htr).
  change (run_out (AutoTag.loop content0 oracle jitter AutoTag.maxRetries 0))
    with (AutoTag.autoTagEntry content0 oracle jitter) in Hc, Hconf, Htr.
  revert Hc Hconf Htr. generalize (AutoTag.autoTagEntry content0 oracle jitter).
  intros ai Hc Hconf Htr. simpl.
  eexists. split; [reflexivity|].
  unfold entry_of_aiResult; simpl. rewrite Hconf. repeat split; try assumption.
  eexists; split; [reflexivity | exact Htr].
Qed.

Lemma addEntry_saved_witness :
  trim "fix the build" <> "" /\ (fun _ : nat => false) 0%nat = false /\
  exists e, addEntry "fix the build" no_oracle (fun _ => 0) (fun _ => false) 0%Z []
            = (Added e, [e]) /\ content e = "fix the build".
Proof.
  split; [discriminate|]. split; [reflexivity|].
  destruct (addEntry_saved "fix the build" no_oracle (fun _ => 0) (fun _ => false) 0%Z []
              ltac:(discriminate) eq_refl) as (e & He & Hc & _).
  exists e. split; [exact He | exact Hc].
Defined.

(** When the first save fails, [addEntry] reports
    "Database error: Failed to create entry in Firestore" and leaves the
    store as it was: the error message names Firestore, so the fallback
    record of the [catch] block is never saved, whatever the second
    save would do. *)
Theorem addEntry_store_failure (content0 : string) oracle jitter fails now db :
  trim content0 <> "" -> fails 0%nat = true ->
  addEntry content0 oracle jitter fails now db
  = (AddFailed "Database error: Failed to create entry in Firestore", db).
Proof.
  intros Ht Hf. unfold addEntry.
  assert (Ef : falsy_str (trim content0) = false) by (apply String.eqb_neq; exact Ht).
  rewrite Ef, Hf. reflexivity.
Qed.

Lemma addEntry_store_failure_witness :
  trim "note" <> "" /\ (fun _ : nat => true) 0%nat = true /\
  addEntry "note" no_oracle (fun _ => 0) (fun _ => true) 0%Z []
  = (AddFailed "Database error: Failed to create entry in Firestore", []).
Proof.
  split; [discriminate|]. split; [reflexivity|].
  apply addEntry_store_failure; [discriminate | reflexivity].
Defined.

End AddEntryProps.

(** ** Stored documents *)

Module DocProps.
Import EntryDoc.
Local Open Scope Q_scope.

Lemma str_or_null_keep (s : option string) :
  (forall v, s = Some v -> v <> "") -> str_or_null s = s.
Proof.
  destruct s as [v|]; simpl; [|reflexivity]. intros H.
  unfold falsy_str. destruct (String.eqb_spec v "") as [E|E]; [|reflexivity].
  exfalso. exact (H v eq_refl E).
Qed.

Lemma str_or_null_nonempty (s : option string) : str_or_null s <> Some "".
Proof.
  destruct s as [v|]; simpl; [|discriminate].
  unfold falsy_str. destruct (String.eqb_spec v "") as [E|E]; [discriminate|].
  intros H. injection H as H. exact (E H).
Qed.

(** Writing an entry with [entryToDoc] and reading it back with
    [docToEntry] gives the entry back, under the store's id, when every
    optional field is present (so that nothing is stored as [null]), the
    due date, language and reasoning are non-empty strings, the owner is
    non-empty and the confidence is not 0. *)
Theorem doc_round_trip (docId : string) (e : EntryData) :
  ~ (e_confidence e == 0) ->
  (exists v, e_translatedContent e = Some v) ->
  (exists v, e_dueDate e = Some v /\ v <> "") ->
  (exists v, e_priority e = Some v) ->
  (exists v, e_actionItems e = Some v) ->
  (exists v, e_language e = Some v /\ v <> "") ->
  (exists v, e_codeType e = Some v) ->
  (exists v, e_slangTerms e = Some v) ->
  (exists v, e_reasoning e = Some v /\ v <> "") ->
  (exists u, userId e = Some u /\ u <> "") ->
  docToEntry docId (entryToDoc e) = mkEntry docId e.
Proof.
  intros Hc _ (dv & Hdv & Hdn) _ _ (lv & Hlv & Hln) _ _ (rv & Hrv & Hrn) (u & Hu & Hne).
  assert (Hd : forall v, e_dueDate e = Some v -> v <> "") by congruence.
  assert (Hl : forall v, e_language e = Some v -> v <> "") by congruence.
  assert (Hr : forall v, e_reasoning e = Some v -> v <> "") by congruence.
  unfold docToEntry, entryToDoc. cbn [d_createdAt d_updatedAt d_content d_translatedContent
    d_detectedLanguage d_category d_tags d_dueDate d_priority d_actionItems d_language
    d_codeType d_containsSlang d_slangTerms d_confidence d_reasoning d_userId d_isCompleted].
  rewrite (str_or_null_keep _ Hd), (str_or_null_keep _ Hl), (str_or_null_keep _ Hr).
  rewrite Hu. simpl. unfold falsy_str. destruct (String.eqb_spec u "") as [E|_]; [contradiction|].
  unfold confidence_or_default. destruct (Qeq_bool (e_confidence e) 0) eqn:Eq.
  - apply Qeq_bool_eq in Eq. contradiction.
  - destruct e; simpl in *; subst; reflexivity.
Qed.

Definition sample_entry : EntryData :=
  mkEntryData 0 0 "fix the build" (Some "fix the build") En bug_fix ["build"] None None None
    (Some "make") None false None (9 # 10) None (Some "anonymous") false.

(** An entry with every optional field present. *)
Definition full_entry : EntryData :=
  mkEntryData 0 0 "fix the build by friday" (Some "fix the build by friday") En task
    ["build"] (Some "2026-10-16") (Some High) (Some ["fix the build"]) (Some "make")
    (Some CTConfig) false (Some []) (9 # 10) (Some "has a deadline") (Some "anonymous") false.

Lemma doc_round_trip_witness :
  docToEntry "id1" (entryToDoc full_entry) = mkEntry "id1" full_entry.
Proof.
  apply doc_round_trip.
  - intros H. vm_compute in H. discriminate.
  - eexists; reflexivity.
  - eexists; split; [reflexivity | discriminate].
  - eexists; reflexivity.
  - eexists; reflexivity.
  - eexists; split; [reflexivity | discriminate].
  - eexists; reflexivity.
  - eexists; reflexivity.
  - eexists; split; [reflexivity | discriminate].
  - exists "anonymous". split; [reflexivity | discriminate].
Defined.

(** A confidence of 0 is stored as 0 but read back by [docToEntry] as
    0.5 ([data.confidence || 0.5]). *)
Theorem zero_confidence_read_back (docId : string) (e : EntryData) :
  e_confidence e == 0 ->
  d_confidence (entryToDoc e) = e_confidence e
  /\ e_confidence (data (docToEntry docId (entryToDoc e))) = 1 # 2.
Proof.
  intros H. split; [reflexivity|]. simpl. unfold confidence_or_default.
  apply Qeq_bool_iff in H. rewrite H. reflexivity.
Qed.

Lemma zero_confidence_read_back_witness :
  e_confidence (Actions.fallback_entry 0%Z "line") == 0
  /\ e_confidence (data (docToEntry "id1" (entryToDoc (Actions.fallback_entry 0%Z "line"))))
     = 1 # 2.
Proof.
  split; [reflexivity|]. apply (zero_confidence_read_back "id1"). reflexivity.
Defined.

(** Every record of the bulk newline fallback is saved with confidence 0,
    shown as "Low"; once read back from the store it has confidence 0.5
    and is shown as "Medium". *)
Theorem bulk_fallback_label (docId : string) (now : Z) (line : string) :
  confidenceLabel (e_confidence (Actions.fallback_entry now line)) = "Low"
  /\ e_confidence (data (docToEntry docId (entryToDoc (Actions.fallback_entry now line)))) = 1 # 2
  /\ confidenceLabel (e_confidence (data (docToEntry docId
                        (entryToDoc (Actions.fallback_entry now line))))) = "Medium".
Proof. repeat split. Qed.

(** [entryToDoc] never stores an empty string as due date, language or
    reasoning ([|| null]) nor an empty owner ([|| 'anonymous']), and
    always stores the tag list. *)
Theorem entryToDoc_no_empty (e : EntryData) :
  d_dueDate (entryToDoc e) <> Some ""
  /\ d_language (entryToDoc e) <> Some ""
  /\ d_reasoning (entryToDoc e) <> Some ""
  /\ d_userId (entryToDoc e) <> ""
  /\ d_tags (entryToDoc e) = Some (e_tags e).
Proof.
  simpl. split; [apply str_or_null_nonempty|]. split; [apply str_or_null_nonempty|].
  split; [apply str_or_null_nonempty|]. split; [|reflexivity].
  destruct (str_or_null (userId e)) as [u|] eqn:E; [|discriminate].
  intros ->. apply (str_or_null_nonempty (userId e)). exact E.
Qed.

End DocProps.

(** ** Category counts *)

Module CountProps.
Import Service.

Definition count_cat (c : EntryCategory) (entries : list Entry) : nat :=
  List.length (filter (fun e => String.eqb (category_name (e_category (data e))) (category_name c))
                 entries).

Definition sum_counts (m : list (string * nat)) : nat := fold_right Nat.add 0%nat (map snd m).

Lemma lookup_bump (k k' : string) (m : list (string * nat)) :
  lookup k (bump k' m)
  = if String.eqb k k' then Some (match lookup k m with Some v => S v | None => 1%nat end)
    else lookup k m.
Proof.
  induction m as [|[k0 v] t IH]; simpl.
  - destruct (String.eqb k k'); reflexivity.
  - destruct (String.eqb_spec k' k0) as [E|E]; simpl.
    + subst k0. destruct (String.eqb k k'); reflexivity.
    + rewrite IH. destruct (String.eqb_spec k k0) as [E0|E0];
        destruct (String.eqb_spec k k') as [E1|E1]; try reflexivity.
      subst. contradiction.
Qed.

Lemma keys_bump (k : string) (m : list (string * nat)) :
  In k (map fst m) -> map fst (bump k m) = map fst m.
Proof.
  induction m as [|[k0 v] t IH]; simpl; [contradiction|].
  intros H. destruct (String.eqb_spec k k0) as [E|E]; simpl; [reflexivity|].
  f_equal. apply IH. destruct H as [H|H]; [congruence | exact H].
Qed.

Lemma sum_bump (k : string) (m : list (string * nat)) :
  sum_counts (bump k m) = S (sum_counts m).
Proof.
  unfold sum_counts. induction m as [|[k0 v] t IH]; simpl; [reflexivity|].
  destruct (String.eqb k k0); simpl; [reflexivity|]. rewrite IH. lia.
Qed.

Definition names : list string := map category_name all_categories.

Lemma name_in (c : EntryCategory) : In (category_name c) names.
Proof. destruct c; simpl; tauto. Qed.

Definition step (counts : list (string * nat)) (entry : Entry) : list (string * nat) :=
  bump (category_name (e_category (data entry))) counts.

Lemma fold_counts (entries : list Entry) (m : list (string * nat)) :
  map fst m = names ->
  map fst (fold_left step entries m) = names
  /\ sum_counts (fold_left step entries m) = (sum_counts m + List.length entries)%nat
  /\ forall c n, lookup (category_name c) m = Some n ->
       lookup (category_name c) (fold_left step entries m) = Some (n + count_cat c entries)%nat.
Proof.
  revert m. induction entries as [|e es IH]; intros m Hm; simpl.
  - split; [exact Hm|]. split; [lia|]. intros c n H. rewrite H, Nat.add_0_r. reflexivity.
  - assert (Hk : map fst (step m e) = names).
    { unfold step. rewrite keys_bump; [exact Hm|]. rewrite Hm. apply name_in. }
    destruct (IH (step m e) Hk) as (H1 & H2 & H3).
    split; [exact H1|]. split.
    + rewrite H2. unfold step. rewrite sum_bump. lia.
    + intros c n Hn. unfold count_cat; simpl. rewrite String.eqb_sym.
      destruct (String.eqb (category_name c) (category_name (e_category (data e)))) eqn:Ec;
        simpl.
      * rewrite (H3 c (S n)); [unfold count_cat; f_equal; lia|]. unfold step. rewrite lookup_bump, Ec, Hn.
        reflexivity.
      * apply H3. unfold step. rewrite lookup_bump, Ec. exact Hn.
Qed.

Lemma initial_lookup (c : EntryCategory) : lookup (category_name c) initial_counts = Some 0%nat.
Proof. destruct c; reflexivity. Qed.

(** [getEntriesCountByCategory] returns [{}] when fetching fails;
    otherwise its keys are exactly the six category names, in order,
    each category's value is the number of fetched entries of that
    category, and the values add up to the number of fetched entries. *)
Theorem getEntriesCountByCategory_spec (entries : list Entry) :
  getEntriesCountByCategory None = []
  /\ map fst (getEntriesCountByCategory (Some entries)) = map category_name all_categories
  /\ (forall c, lookup (category_name c) (getEntriesCountByCategory (Some entries))
                = Some (count_cat c entries))
  /\ sum_counts (getEntriesCountByCategory (Some entries)) = List.length entries.
Proof.
  destruct (fold_counts entries initial_counts eq_refl) as (H1 & H2 & H3).
  split; [reflexivity|]. simpl. fold step. split; [exact H1|]. split; [|exact H2].
  intros c. apply (H3 c 0%nat (initial_lookup c)).
Qed.

Lemma bump_skip_all (c : EntryCategory) (v : nat) (m : list (string * nat)) :
  bump (category_name c) (("all", v) :: m) = ("all", v) :: bump (category_name c) m.
Proof. destruct c; reflexivity. Qed.

Lemma fold_skip_all (entries : list Entry) (v : nat) (m : list (string * nat)) :
  fold_left step entries (("all", v) :: m) = ("all", v) :: fold_left step entries m.
Proof.
  revert m. induction entries as [|e es IH]; intros m; simpl; [reflexivity|].
  unfold step at 2. rewrite bump_skip_all. apply IH.
Qed.

(** The page's [entryCounts] is the service's per-category count of the
    same entries behind an [all] key holding their number: the [all] key
    is never incremented by an entry. *)
Theorem entryCounts_service (entries : list Entry) :
  EntryList.entryCounts entries
  = ("all", List.length entries) :: getEntriesCountByCategory (Some entries).
Proof.
  unfold EntryList.entryCounts, getEntriesCountByCategory. fold step.
  apply fold_skip_all.
Qed.

End CountProps.

(** ** Batch deletion *)

Module DeleteProps.
Import Service.

Section Chunks.
Variable D : Type.

Lemma chunk_loop_concat (docs : list D) (fuel i : nat) :
  (List.length docs - i <= fuel * batchSize)%nat ->
  List.concat (chunk_loop fuel i docs) = skipn i docs.
Proof.
  revert i. induction fuel as [|fuel IH]; intros i Hf; simpl.
  - symmetry. apply skipn_all2. unfold batchSize in Hf. lia.
  - destruct (Nat.ltb_spec i (List.length docs)) as [Hi|Hi]; simpl.
    + rewrite IH by (unfold batchSize in *; lia).
      rewrite <- (firstn_skipn batchSize (skipn i docs)) at 2.
      rewrite skipn_skipn, Nat.add_comm. reflexivity.
    + symmetry. apply skipn_all2. exact Hi.
Qed.

Lemma chunk_loop_sizes (docs : list D) (fuel i : nat) (c : list D) :
  In c (chunk_loop fuel i docs) -> (1 <= List.length c <= batchSize)%nat.
Proof.
  revert i. induction fuel as [|fuel IH]; intros i; cbn [chunk_loop In]; [contradiction|].
  destruct (Nat.ltb_spec i (List.length docs)) as [Hi|Hi]; cbn [In]; [|contradiction].
  intros [<-|H]; [|exact (IH _ H)].
  rewrite length_firstn, length_skipn. unfold batchSize in *. lia.
Qed.

Lemma chunk_loop_count (docs : list D) (fuel i : nat) :
  (List.length docs - i <= fuel * batchSize)%nat ->
  (List.length docs - i <= batchSize * List.length (chunk_loop fuel i docs)
   < List.length docs - i + batchSize)%nat.
Proof.
  revert i. induction fuel as [|fuel IH]; intros i Hf; simpl.
  - unfold batchSize in *. lia.
  - destruct (Nat.ltb_spec i (List.length docs)) as [Hi|Hi]; simpl.
    + specialize (IH (i + batchSize)%nat ltac:(unfold batchSize in *; lia)).
      unfold batchSize in *. lia.
    + unfold batchSize in *. lia.
Qed.

Lemma firstn_add_split (a b : nat) (l : list D) :
  firstn (a + b) l = (firstn a l ++ firstn b (skipn a l))%list.
Proof.
  revert l. induction a as [|a IH]; intros l; simpl; [reflexivity|].
  destruct l as [|x l]; simpl.
  - rewrite firstn_nil. reflexivity.
  - f_equal. apply IH.
Qed.

Lemma chunk_loop_prefix (docs : list D) (fuel i j : nat) :
  (List.length docs - i <= fuel * batchSize)%nat ->
  List.concat (firstn j (chunk_loop fuel i docs)) = firstn (batchSize * j) (skipn i docs).
Proof.
  revert i j. induction fuel as [|fuel IH]; intros i j Hf; cbn [chunk_loop].
  - rewrite firstn_nil, skipn_all2 by (unfold batchSize in Hf; lia).
    rewrite firstn_nil. reflexivity.
  - destruct (Nat.ltb_spec i (List.length docs)) as [Hi|Hi].
    + destruct j as [|j]; cbn [firstn List.concat]; [rewrite Nat.mul_0_r; reflexivity|].
      rewrite IH by (unfold batchSize in *; lia).
      replace (batchSize * S j)%nat with (batchSize + batchSize * j)%nat by lia.
      rewrite firstn_add_split, skipn_skipn, (Nat.add_comm batchSize i). reflexivity.
    + rewrite firstn_nil, skipn_all2 by exact Hi. rewrite firstn_nil. reflexivity.
Qed.

Lemma chunks_concat (docs : list D) : List.concat (chunks docs) = docs.
Proof. unfold chunks. rewrite chunk_loop_concat; [reflexivity | unfold batchSize; lia]. Qed.

Lemma chunks_prefix (docs : list D) (j : nat) :
  List.concat (firstn j (chunks docs)) = firstn (batchSize * j) docs.
Proof. unfold chunks. rewrite chunk_loop_prefix; [reflexivity | unfold batchSize; lia]. Qed.

Lemma commit_all_ok (fails : nat -> bool) (k : nat) (cs : list (list D)) :
  (forall j, (j < List.length cs)%nat -> fails (k + j)%nat = false) ->
  commit_all fails k cs = (List.concat cs, true).
Proof.
  revert k. induction cs as [|c cs IH]; intros k H; simpl; [reflexivity|].
  pose proof (H 0%nat ltac:(simpl; lia)) as H0. rewrite Nat.add_0_r in H0. rewrite H0.
  rewrite IH; [reflexivity|]. intros j Hj. replace (S k + j)%nat with (k + S j)%nat by lia. apply H. simpl. lia.
Qed.

Lemma commit_all_fail (fails : nat -> bool) (k j : nat) (cs : list (list D)) :
  (j < List.length cs)%nat -> fails (k + j)%nat = true ->
  (forall i, (i < j)%nat -> fails (k + i)%nat = false) ->
  commit_all fails k cs = (List.concat (firstn j cs), false).
Proof.
  revert k j. induction cs as [|c cs IH]; intros k j Hj Hf Hb; simpl in *; [lia|].
  destruct j as [|j].
  - rewrite Nat.add_0_r in Hf. rewrite Hf. reflexivity.
  - pose proof (Hb 0%nat ltac:(lia)) as H0. rewrite Nat.add_0_r in H0. rewrite H0.
    rewrite (IH (S k) j); [reflexivity | lia | replace (S k + j)%nat with (k + S j)%nat by lia; exact Hf |].
    intros i Hi. replace (S k + i)%nat with (k + S i)%nat by lia. apply Hb. lia.
Qed.

End Chunks.

(** [deleteAllEntries] splits the documents into consecutive chunks of
    one to 500 documents, in order, as few as possible (ceil(n/500)). *)
Theorem chunks_spec {D : Type} (docs : list D) :
  List.concat (chunks docs) = docs
  /\ (forall c, In c (chunks docs) -> (1 <= List.length c <= 500)%nat)
  /\ (List.length docs <= 500 * List.length (chunks docs) < List.length docs + 500)%nat.
Proof.
  split; [apply chunks_concat|]. split.
  - intros c. apply chunk_loop_sizes.
  - pose proof (chunk_loop_count D docs (List.length docs) 0 ltac:(unfold batchSize; lia)) as H.
    rewrite Nat.sub_0_r in H. exact H.
Qed.

(** When every batch commit succeeds, [deleteAllEntries] deletes all the
    documents; when batch [j] is the first to fail, exactly the first
    [500 * j] documents are deleted and the operation fails. *)
Theorem deleteAllEntries_spec {D : Type} (docs : list D) (fails : nat -> bool) (j : nat) :
  ((forall i, (i < List.length (chunks docs))%nat -> fails i = false) ->
   deleteAllEntries docs fails = (docs, true))
  /\ ((j < List.length (chunks docs))%nat -> fails j = true ->
      (forall i, (i < j)%nat -> fails i = false) ->
      deleteAllEntries docs fails = (firstn (500 * j) docs, false)).
Proof.
  unfold deleteAllEntries. split.
  - intros H. destruct docs as [|d ds]; [reflexivity|].
    rewrite commit_all_ok; [rewrite chunks_concat; reflexivity|]. exact H.
  - intros Hj Hf Hb. destruct docs as [|d ds]; [simpl in Hj; lia|].
    rewrite (commit_all_fail _ fails 0 j); [rewrite chunks_prefix; reflexivity | exact Hj
      | exact Hf | exact Hb].
Qed.

Lemma deleteAllEntries_spec_witness :
  deleteAllEntries (seq 0 1200) (fun k => Nat.eqb k 1) = (seq 0 500, false).
Proof.
  apply (proj2 (deleteAllEntries_spec (seq 0 1200) (fun k => Nat.eqb k 1) 1)).
  - vm_compute. lia.
  - reflexivity.
  - intros [|i] Hi; [reflexivity | lia].
Defined.

End DeleteProps.

(** ** Entry list of the page *)

Module ListProps.
Import EntryList Search.

Lemma filter_comm {A} (f g : A -> bool) (l : list A) :
  filter f (filter g l) = filter g (filter f l).
Proof.
  induction l as [|x l IH]; simpl; [reflexivity|].
  destruct (g x) eqn:Eg, (f x) eqn:Ef; simpl; rewrite ?Eg, ?Ef, IH; reflexivity.
Qed.

Lemma filter_idem {A} (f : A -> bool) (l : list A) : filter f (filter f l) = filter f l.
Proof.
  induction l as [|x l IH]; simpl; [reflexivity|].
  destruct (f x) eqn:Ef; simpl; rewrite ?Ef, IH; reflexivity.
Qed.

Lemma filter_map_inv {A} (f : A -> bool) (g : A -> A) (l : list A) :
  (forall x, f (g x) = f x) -> filter f (map g l) = map g (filter f l).
Proof.
  intros H. induction l as [|x l IH]; simpl; [reflexivity|].
  rewrite H. destruct (f x); simpl; rewrite IH; reflexivity.
Qed.

Lemma category_eqb_iff (a b : EntryCategory) : category_eqb a b = true <-> a = b.
Proof. destruct a, b; unfold category_eqb; simpl; split; intros H; try reflexivity; discriminate. Qed.

Definition category_filter (sel : CategoryFilter) (entries : list Entry) : list Entry :=
  match sel with
  | AllCategories => entries
  | OnlyCategory c => filter (fun e => category_eqb (e_category (data e)) c) entries
  end.

Definition in_category (sel : CategoryFilter) (e : Entry) : Prop :=
  match sel with AllCategories => True | OnlyCategory c => e_category (data e) = c end.

Lemma filteredEntries_eq (entries : list Entry) (sel : CategoryFilter) (q : string) :
  filteredEntries entries sel q = category_filter sel (localSearch q entries).
Proof.
  unfold filteredEntries, localSearch. destruct sel as [|c]; simpl;
    destruct (falsy_str (trim q)); simpl; try reflexivity.
  apply filter_comm.
Qed.

(** Searching twice with the same query gives the same list as
    searching once. *)
Theorem localSearch_idempotent (q : string) (entries : list Entry) :
  localSearch q (localSearch q entries) = localSearch q entries.
Proof.
  unfold localSearch. destruct (falsy_str (trim q)); [reflexivity|]. apply filter_idem.
Qed.

(** The page's [filteredEntries] is the category filter applied after
    [localSearch] (the two filters commute; a blank query leaves the
    list as it is either way); an entry is shown exactly when it is in
    the list, in the selected category, and (for a non-blank query)
    its searchable text contains every query term. *)
Theorem filteredEntries_spec (entries : list Entry) (sel : CategoryFilter) (q : string) :
  filteredEntries entries sel q = category_filter sel (localSearch q entries)
  /\ forall e, In e (filteredEntries entries sel q)
       <-> In e entries /\ in_category sel e
           /\ (trim q <> "" -> forall t, In t (search_terms q) ->
                includes (searchableContent e) t = true).
Proof.
  split; [apply filteredEntries_eq|]. intros e. rewrite filteredEntries_eq.
  assert (Hs : In e (localSearch q entries) <-> In e entries
           /\ (trim q <> "" -> forall t, In t (search_terms q) ->
                 includes (searchableContent e) t = true)).
  { unfold localSearch, falsy_str. destruct (String.eqb_spec (trim q) "") as [E|E].
    - split; [intros H; split; [exact H | intros Hn; contradiction] | intros [H _]; exact H].
    - rewrite filter_In, forallb_forall. split.
      + intros [H1 H2]. split; [exact H1 | intros _; exact H2].
      + intros [H1 H2]. split; [exact H1 | apply H2; exact E]. }
  destruct sel as [|c]; simpl.
  - rewrite Hs. tauto.
  - rewrite filter_In, category_eqb_iff, Hs. tauto.
Qed.

Lemma fold_left_map' {A B C} (f : A -> B -> A) (g : C -> B) (l : list C) (a : A) :
  fold_left f (map g l) a = fold_left (fun acc x => f acc (g x)) l a.
Proof. revert a. induction l as [|x l IH]; intros a; simpl; [reflexivity | apply IH]. Qed.

Lemma fold_left_ext' {A B} (f g : A -> B -> A) (l : list B) (a : A) :
  (forall acc x, f acc x = g acc x) -> fold_left f l a = fold_left g l a.
Proof.
  intros H. revert a. induction l as [|x l IH]; intros a; simpl; [reflexivity|].
  rewrite H. apply IH.
Qed.

(** Toggling an entry's completion on the page changes neither the
    category counts nor which entries the current filter and search
    show: filtering the toggled list is toggling the filtered list. *)
Theorem toggle_preserves_view (i : string) (b : bool) (entries : list Entry)
  (sel : CategoryFilter) (q : string) :
  entryCounts (handleToggleCompletion i b entries) = entryCounts entries
  /\ filteredEntries (handleToggleCompletion i b entries) sel q
     = handleToggleCompletion i b (filteredEntries entries sel q).
Proof.
  split.
  - unfold entryCounts, handleToggleCompletion. rewrite length_map, fold_left_map'.
    apply fold_left_ext'. intros acc e. f_equal. f_equal.
    destruct (String.eqb (id e) i); reflexivity.
  - rewrite !filteredEntries_eq. unfold handleToggleCompletion, localSearch.
    destruct (falsy_str (trim q)).
    + destruct sel as [|c]; simpl; [reflexivity|].
      apply filter_map_inv. intros x. destruct (String.eqb (id x) i); reflexivity.
    + rewrite filter_map_inv.
      2:{ intros x. destruct (String.eqb (id x) i); reflexivity. }
      destruct sel as [|c]; simpl; [reflexivity|].
      apply filter_map_inv. intros x. destruct (String.eqb (id x) i); reflexivity.
Qed.

(** Toggling the same entry twice keeps only the second value; toggling
    it back to the value all entries with that id had restores the list. *)
Theorem toggle_round_trip (i : string) (b b' old : bool) (entries : list Entry) :
  handleToggleCompletion i b' (handleToggleCompletion i b entries)
  = handleToggleCompletion i b' entries
  /\ ((forall e, In e entries -> id e = i -> e_isCompleted (data e) = old) ->
      handleToggleCompletion i old (handleToggleCompletion i b entries) = entries).
Proof.
  unfold handleToggleCompletion. split; rewrite map_map.
  - apply map_ext. intros e. destruct (String.eqb (id e) i) eqn:E; simpl; rewrite ?E;
      reflexivity.
  - intros H. rewrite <- (map_id entries) at 2. apply map_ext_in. intros e He.
    destruct (String.eqb_spec (id e) i) as [E|E]; simpl.
    + rewrite E, String.eqb_refl. rewrite <- (H e He E).
      destruct e as [i0 [] ]; reflexivity.
    + apply String.eqb_neq in E. rewrite E. reflexivity.
Qed.

Definition sample_list : list Entry :=
  [mkEntry "a" DocProps.sample_entry; mkEntry "b" DocProps.sample_entry].

Lemma toggle_round_trip_witness :
  handleToggleCompletion "a" false (handleToggleCompletion "a" true sample_list) = sample_list.
Proof.
  apply (proj2 (toggle_round_trip "a" true true false sample_list)).
  intros e [<-|[<-|[]]] _; reflexivity.
Defined.

(** Deleting an entry on the page removes every entry with that id and
    keeps the others in order: a list without that id is left as it is,
    and deleting from [l1 ++ l2] deletes from each part in place (so the
    kept entries of [l1] stay before those of [l2]).  It commutes with
    the filter and search. *)
Theorem delete_spec (i : string) (entries l1 l2 : list Entry) (sel : CategoryFilter)
  (q : string) :
  (forall e, In e (handleDeleteEntry i entries) <-> In e entries /\ id e <> i)
  /\ ((forall e, In e entries -> id e <> i) -> handleDeleteEntry i entries = entries)
  /\ handleDeleteEntry i (l1 ++ l2) = (handleDeleteEntry i l1 ++ handleDeleteEntry i l2)%list
  /\ filteredEntries (handleDeleteEntry i entries) sel q
     = handleDeleteEntry i (filteredEntries entries sel q).
Proof.
  split; [|split; [|split]].
  - intros e. unfold handleDeleteEntry. rewrite filter_In, negb_true_iff, String.eqb_neq.
    reflexivity.
  - intros H. unfold handleDeleteEntry. induction entries as [|e es IH]; simpl; [reflexivity|].
    assert (He : (id e =? i)%string = false) by (apply String.eqb_neq, H; left; reflexivity).
    rewrite He. simpl. f_equal. apply IH. intros x Hx. apply H. right. exact Hx.
  - unfold handleDeleteEntry. apply filter_app.
  - rewrite !filteredEntries_eq. unfold handleDeleteEntry, localSearch.
    destruct (falsy_str (trim q)); destruct sel as [|c]; simpl;
      [reflexivity | apply filter_comm | apply filter_comm |].
    rewrite (filter_comm _ (fun e => negb (id e =? i)%string)). apply filter_comm.
Qed.

Lemma delete_spec_witness :
  handleDeleteEntry "c" sample_list = sample_list
  /\ handleDeleteEntry "a" sample_list = [mkEntry "b" DocProps.sample_entry].
Proof.
  split.
  - apply (proj1 (proj2 (delete_spec "c" sample_list [] [] AllCategories ""))).
    intros e [<-|[<-|[]]]; discriminate.
  - change sample_list with ([mkEntry "a" DocProps.sample_entry]
                             ++ [mkEntry "b" DocProps.sample_entry])%list.
    rewrite (proj1 (proj2 (proj2 (delete_spec "a" [] [mkEntry "a" DocProps.sample_entry]
              [mkEntry "b" DocProps.sample_entry] AllCategories "")))).
    reflexivity.
Defined.

End ListProps.

(** ** Smart import with nothing to save *)

Module BulkEmptyProps.
Import Actions.

(** [bulkAddEntries] returns a count of 0 and leaves the store as it was
    both for blank input and when the oracle answers with an empty list:
    in the second case the newline fallback is not taken, so a non-blank
    blob imports nothing. *)
Theorem bulk_empty_results (raw : string)
  (oracle : nat -> OracleResponse (list AutoTagEntryOutput)) (jitter : nat -> Q)
  (fails : nat -> bool) (now : Z) (db : list EntryData) :
  trim raw = "" \/ run_out (Bulk.bulkAutoTagFlow oracle jitter) = inl [] ->
  bulkAddEntries raw oracle jitter fails now db = (BOk 0, db).
Proof.
  intros H. unfold bulkAddEntries. destruct (falsy_str (trim raw)) eqn:E; [reflexivity|].
  destruct H as [H|H].
  - rewrite H in E. discriminate.
  - rewrite H. reflexivity.
Qed.

Lemma bulk_empty_results_witness :
  bulkAddEntries "first idea\nsecond idea" (fun _ => Answer (Some [])) (fun _ => 0%Q)
    (fun _ => false) 0%Z [] = (BOk 0, []).
Proof.
  apply bulk_empty_results. right. reflexivity.
Defined.

End BulkEmptyProps.
